(** * cantor-systems/logger: the GELF UDP writer of [logger.go]

    A shallow embedding of [logger.go] and the properties of its chunked
    GELF transport: chunk counting, chunk framing, the send loop, the
    compression dispatch of [Write] and the dial fallback of [New].

    Conventions of the embedding.
    - Go's [int] is a 64-bit two's-complement integer: it is a [Z] and every
      arithmetic result goes through [wrap64]; [uint8] goes through [uint8].
    - A [[]byte] is a [list byte]; [len] is its length as a [Z]. The length of
      a Go slice is an [int] and a slice of [max_int] bytes does not fit in
      memory: statements that need it assume [len b < max_int].
    - A Go function that can panic returns an [outcome]; the datagrams handed
      to the connection, the reads of [rand.Reader] and the lines printed are
      threaded through a [World] by the monad [M].
    - What the operating system and the imported packages decide (the reply
      of the socket to each write, the bytes of [rand.Reader], the output of
      the gzip and zlib compressors, the result of the dial, whether zap can
      build its base logger) is read from an environment [Env]. *)

From Stdlib Require Import String Ascii DecimalString.
From Stdlib Require Import ZArith Bool List Lia.
From Stdlib.Strings Require Import Byte.
Import ListNotations.
Local Open Scope Z_scope.

(** ** Machine integers *)

Definition min_int : Z := - 2 ^ 63.
Definition max_int : Z := 2 ^ 63 - 1.

(** Two's-complement wrap-around of a 64-bit [int]. *)
Definition wrap64 (z : Z) : Z := (z + 2 ^ 63) mod 2 ^ 64 - 2 ^ 63.

Definition int_add (a b : Z) : Z := wrap64 (a + b).
Definition int_sub (a b : Z) : Z := wrap64 (a - b).
Definition int_mul (a b : Z) : Z := wrap64 (a * b).
(** [a / b] on [int] truncates toward zero; the caller tests [b = 0]. *)
Definition int_quot (a b : Z) : Z := wrap64 (Z.quot a b).

(** The conversion [uint8(x)] and the byte that [WriteByte] appends. *)
Definition uint8 (z : Z) : Z := z mod 256.

Definition byte_of_uint8 (z : Z) : byte :=
  match Byte.of_N (Z.to_N (uint8 z)) with
  | Some b => b
  | None => x00
  end.

Definition len (b : list byte) : Z := Z.of_nat (length b).

(** The slice expression [s[lo:hi]]. Go panics unless [0 <= lo <= hi <= cap(s)];
    the embedding has no capacities and answers [None] as soon as [hi] exceeds
    [len s]. [sendStage_never_slices_out_of_range] shows that [Write] stays
    within [len s], where both agree. *)
Definition slice (s : list byte) (lo hi : Z) : option (list byte) :=
  if (0 <=? lo) && (lo <=? hi) && (hi <=? len s)
  then Some (firstn (Z.to_nat (hi - lo)) (skipn (Z.to_nat lo) s))
  else None.

(** ** Errors and panics *)

Inductive error : Type :=
| ExtError (msg : string)
    (* an error value made by net, crypto/rand or io *)
| ErrInvalidLevel (pkg : string) (level : Z)
    (* "<pkg>: invalid compression level: %d" *)
| ErrNeedChunks (count max : Z)
    (* "need %d chunks but shold be later or equal to %d" *)
| ErrRandReader (n : Z) (err : string)
    (* "rand.Reader: %d/%s", [err] being the operand as [%s] prints it *)
| ErrShortWrite (n should : Z)
    (* "writed %d bytes but should %d bytes" *)
| ErrBytesLeft (bytesLeft : Z).
    (* "error: %d bytes left after sending" *)

(** The verb [%d]. *)
Definition fmt_d (z : Z) : string := NilZero.string_of_int (Z.to_int z).

(** The method [Error()] of the values above, as [fmt.Errorf] renders them. *)
Definition Error (e : error) : string :=
  match e with
  | ExtError msg => msg
  | ErrInvalidLevel pkg level =>
      pkg ++ ": invalid compression level: " ++ fmt_d level
  | ErrNeedChunks count max =>
      "need " ++ fmt_d count ++ " chunks but shold be later or equal to "
        ++ fmt_d max
  | ErrRandReader n err =>
      "rand.Reader: " ++ fmt_d n ++ "/" ++ err
  | ErrShortWrite n should =>
      "writed " ++ fmt_d n ++ " bytes but should " ++ fmt_d should ++ " bytes"
  | ErrBytesLeft bytesLeft =>
      "error: " ++ fmt_d bytesLeft ++ " bytes left after sending"
  end%string.

(** The verb [%s] applied to an [error] operand that may be nil. *)
Definition fmt_s (err : option error) : string :=
  match err with
  | Some e => Error e
  | None => "%!s(<nil>)"
  end.

Inductive panic_kind : Type :=
| NilDereference   (* a method call through a nil interface value *)
| DivideByZero     (* integer divide by zero *)
| SliceBounds      (* slice bounds out of range *)
| MakeSliceCap.    (* makeslice: cap out of range *)

Inductive outcome (A : Type) : Type :=
| Returned (a : A)
| Panicked (p : panic_kind).
Arguments Returned {A} a.
Arguments Panicked {A} p.

(** ** The world outside the process *)

(** [sent]: the datagrams handed to [conn.Write], oldest first.
    [entropy_reads]: how many times [rand.Reader] was read.
    [stdout]: the lines printed with [fmt.Println]. *)
Record World : Type := mkWorld {
  sent : list (list byte);
  entropy_reads : nat;
  stdout : list string
}.

(** A connected socket: its reply [(n, err)] to the [k]-th datagram handed to
    it ([k] counts from 0) as a function of [k] and of the datagram. *)
Definition Conn : Type := nat -> list byte -> Z * option error.

Record Env : Type := mkEnv {
  (* compress/gzip and compress/zlib: level and input to the whole output *)
  gzip_output : Z -> list byte -> list byte;
  zlib_output : Z -> list byte -> list byte;
  (* the k-th io.ReadFull(rand.Reader, messageID): bytes read and error *)
  rand_ReadFull : nat -> list byte * option error;
  (* net.DialTimeout(network, address, timeout in seconds) *)
  net_DialTimeout : string -> string -> Z -> Conn + error;
  (* the error, if any, of zap building the encoder and opening the sinks *)
  zap_Build_error : option error;
  os_Getpid : Z;
  os_exe : string   (* path.Base(os.Args[0]) *)
}.

(** ** The monad of stateful, possibly panicking code *)

Definition M (A : Type) : Type := World -> outcome A * World.

Definition ret {A : Type} (a : A) : M A := fun s => (Returned a, s).

Definition panic {A : Type} (p : panic_kind) : M A := fun s => (Panicked p, s).

Definition bind {A B : Type} (m : M A) (k : A -> M B) : M B :=
  fun s =>
    match m s with
    | (Returned a, s') => k a s'
    | (Panicked p, s') => (Panicked p, s')
    end.

Declare Scope go_scope.
Delimit Scope go_scope with go.
Notation "x <- m ;; k" := (bind m (fun x => k))
  (at level 100, m at next level, right associativity) : go_scope.
Notation "' p <- m ;; k" := (bind m (fun x => let p := x in k))
  (at level 100, p pattern, m at next level, right associativity) : go_scope.
Local Open Scope go_scope.

(** ** Types and constants of logger.go *)

Record LoggingConfiguration : Type := {
  GraylogAddress : string;
  AppName : string;
  Hostname : string
}.

(** [conn] is an interface value: [None] is nil. *)
Record writer : Type := mkWriter {
  conn : option Conn;
  chunkSize : Z;
  chunkDataSize : Z;
  compressionType : Z;
  compressionLevel : Z
}.

Definition MaxChunkCount : Z := 128.
Definition DefaultChunkSize : Z := 1420.
Definition CompressionNone : Z := 0.
Definition CompressionGzip : Z := 1.
Definition CompressionZlib : Z := 2.

Definition chunkedMagicBytes : list byte := [x1e; x0f].

(** compress/flate's level bounds, shared by gzip and zlib. *)
Definition HuffmanOnly : Z := -2.
Definition BestCompression : Z := 9.

(** ** Primitives of the imported packages *)

(** [w.conn.Write(p)]: a nil interface panics; otherwise the datagram is
    handed to the socket, which replies [(n, err)]. *)
Definition conn_Write (c : option Conn) (p : list byte) : M (Z * option error) :=
  fun s =>
    match c with
    | None => (Panicked NilDereference, s)
    | Some reply =>
        (Returned (reply (length (sent s)) p),
         mkWorld (sent s ++ [p]) (entropy_reads s) (stdout s))
    end.

(** [io.ReadFull(rand.Reader, messageID)] on [messageID = make([]byte, 8)]:
    the buffer afterwards (the bytes read, then the zeroes of [make]), the
    number [n] of bytes read and the error. *)
Definition io_ReadFull_rand (env : Env) : M (list byte * Z * option error) :=
  fun s =>
    let '(got, err) := rand_ReadFull env (entropy_reads s) in
    let messageID := firstn 8 (got ++ repeat x00 8) in
    (Returned (messageID, len (firstn 8 got), err),
     mkWorld (sent s) (S (entropy_reads s)) (stdout s)).

Definition fmt_Println (line : string) : M unit :=
  fun s => (Returned tt, mkWorld (sent s) (entropy_reads s) (stdout s ++ [line])).

(** The values of [cw : io.WriteCloser] in [Write]. [writeCloser b] is a
    pointer to a [writeCloser] struct whose embedded [bytes.Buffer] holds
    [b]: the composite literal [writeCloser{cBuf}] copies the value of [cBuf]
    into the new struct, so this writer appends to a buffer of its own. The
    gzip and zlib writers were given [&cBuf] and flush into it when closed. *)
Inductive io_WriteCloser : Type :=
| nil_WriteCloser
| writeCloser (Buffer : list byte)
| gzip_Writer (level : Z) (pending : list byte)
| zlib_Writer (level : Z) (pending : list byte).

(** [gzip.NewWriterLevel(&cBuf, level)] and [zlib.NewWriterLevel(&cBuf, level)]. *)
Definition gzip_NewWriterLevel (level : Z) : io_WriteCloser * option error :=
  if (level <? HuffmanOnly) || (level >? BestCompression)
  then (nil_WriteCloser, Some (ErrInvalidLevel "gzip" level))
  else (gzip_Writer level [], None).

Definition zlib_NewWriterLevel (level : Z) : io_WriteCloser * option error :=
  if (level <? HuffmanOnly) || (level >? BestCompression)
  then (nil_WriteCloser, Some (ErrInvalidLevel "zlib" level))
  else (zlib_Writer level [], None).

(** [cw.Write(buf)]: the writer afterwards and [(n, err)]; a call through the
    nil interface panics. A [bytes.Buffer] accepts every write, so none of
    the three writers reports an error. *)
Definition cw_Write (cw : io_WriteCloser) (buf : list byte)
  : outcome (io_WriteCloser * (Z * option error)) :=
  match cw with
  | nil_WriteCloser => Panicked NilDereference
  | writeCloser b => Returned (writeCloser (b ++ buf), (len buf, None))
  | gzip_Writer level pending =>
      Returned (gzip_Writer level (pending ++ buf), (len buf, None))
  | zlib_Writer level pending =>
      Returned (zlib_Writer level (pending ++ buf), (len buf, None))
  end.

(** [cw.Close()]: the contents of [cBuf] afterwards. *)
Definition cw_Close (env : Env) (cw : io_WriteCloser) (cBuf : list byte) : list byte :=
  match cw with
  | nil_WriteCloser => cBuf
  | writeCloser _ => cBuf
  | gzip_Writer level pending => cBuf ++ gzip_output env level pending
  | zlib_Writer level pending => cBuf ++ zlib_output env level pending
  end.

(** ** The writer *)

(** [chunkCount]: lines 171-178. *)
Definition chunkCount (w : writer) (b : list byte) : outcome Z :=
  let lenB := len b in
  if lenB <=? chunkSize w then Returned 1
  else if chunkDataSize w =? 0 then Panicked DivideByZero
  else Returned (int_add (int_quot (len b) (chunkDataSize w)) 1).

(** The [for] loop of [writeChunked], lines 204-228. [i] and [nChunks] are
    [uint8] and [i] starts at 0, so the guard [i < nChunks] holds for exactly
    the first [nChunks] values of [i] ([for_guard] below): [todo] is the
    number of iterations that remain, [Z.to_nat nChunks] at the start. The
    result is [inl] of the values returned from inside the loop, or [inr] of
    [bytesLeft] when the loop ends. *)
Fixpoint chunkLoop (w : writer) (messageID : list byte) (nChunks : Z)
    (cBytes : list byte) (todo : nat) (i : Z) (bytesLeft : Z)
  : M ((Z * option error) + Z) :=
  match todo with
  | O => ret (inr bytesLeft)
  | S todo' =>
      let off := int_mul i (chunkDataSize w) in
      let chunkLen :=
        if chunkDataSize w >? bytesLeft then bytesLeft else chunkDataSize w in
      match slice cBytes off (int_add off chunkLen) with
      | None => panic SliceBounds
      | Some part =>
          let cBuf :=
            chunkedMagicBytes ++ messageID ++ [byte_of_uint8 i]
              ++ [byte_of_uint8 nChunks] ++ part in
          '(n, err) <- conn_Write (conn w) cBuf ;;
          match err with
          | Some e =>
              ret (inl (int_add (int_sub (len cBytes) bytesLeft) n, Some e))
          | None =>
              if negb (n =? len cBuf) then
                let n' := int_add (int_sub (len cBytes) bytesLeft) n in
                ret (inl (n', Some (ErrShortWrite n' (len cBytes))))
              else
                chunkLoop w messageID nChunks cBytes todo'
                  (uint8 (i + 1)) (int_sub bytesLeft chunkLen)
          end
      end
  end.

(** [writeChunked]: lines 181-235. [make([]byte, 0, w.chunkSize)] panics on
    a negative capacity; running out of memory is not modelled. *)
Definition writeChunked (env : Env) (w : writer) (count : Z) (cBytes : list byte)
  : M (Z * option error) :=
  if count >? MaxChunkCount then
    ret (0, Some (ErrNeedChunks count MaxChunkCount))
  else if chunkSize w <? 0 then panic MakeSliceCap
  else
    let nChunks := uint8 count in
    '(messageID, n, err) <- io_ReadFull_rand env ;;
    match err, n =? 8 with
    | None, true =>
        r <- chunkLoop w messageID nChunks cBytes (Z.to_nat nChunks) 0 (len cBytes) ;;
        match r with
        | inl early => ret early
        | inr bytesLeft =>
            if negb (bytesLeft =? 0) then
              ret (int_sub (len cBytes) bytesLeft, Some (ErrBytesLeft bytesLeft))
            else ret (len cBytes, None)
        end
    | _, _ => ret (0, Some (ErrRandReader n (fmt_s err)))
    end.

(** [Write], lines 130-152: from [buf] to the bytes of [cBuf], unless the
    function returns or panics before. *)
Definition compressStage (env : Env) (w : writer) (buf : list byte)
  : outcome ((Z * option error) + list byte) :=
  let cBuf : list byte := [] in
  let '(cw, err) :=
    if compressionType w =? CompressionNone then (writeCloser cBuf, None)
    else if compressionType w =? CompressionGzip then
      gzip_NewWriterLevel (compressionLevel w)
    else if compressionType w =? CompressionZlib then
      zlib_NewWriterLevel (compressionLevel w)
    else (nil_WriteCloser, None) in
  match err with
  | Some e => Returned (inl (0, Some e))
  | None =>
      match cw_Write cw buf with
      | Panicked p => Panicked p
      | Returned (cw', (n, Some e)) => Returned (inl (n, Some e))
      | Returned (cw', (n, None)) => Returned (inr (cw_Close env cw' cBuf))
      end
  end.

(** [Write], lines 154-167: from [cBytes] to the result. *)
Definition sendStage (env : Env) (w : writer) (cBytes : list byte)
  : M (Z * option error) :=
  match chunkCount w cBytes with
  | Panicked p => panic p
  | Returned count =>
      if count >? 1 then writeChunked env w count cBytes
      else
        '(n, err) <- conn_Write (conn w) cBytes ;;
        match err with
        | Some e => ret (n, Some e)
        | None =>
            if negb (n =? len cBytes) then
              ret (n, Some (ErrShortWrite n (len cBytes)))
            else ret (n, None)
        end
  end.

(** [Write]: lines 129-168. *)
Definition Write (env : Env) (w : writer) (buf : list byte) : M (Z * option error) :=
  match compressStage env w buf with
  | Panicked p => panic p
  | Returned (inl early) => ret early
  | Returned (inr cBytes) => sendStage env w cBytes
  end.

(** ** The constructor *)

(** A zap core is either the one [Config.Build] makes from the production
    configuration (JSON lines to stderr) or the one [New] makes around its
    writer. *)
Inductive Core : Type :=
| ProductionCore
| GraylogCore (w : writer).

Inductive Field : Type :=
| zap_Int (key : string) (value : Z)
| zap_String (key : string) (value : string).

Record Logger : Type := mkLogger {
  logger_core : Core;
  logger_fields : list Field
}.

(** The closure [corewrap], lines 87-109. It assigns the variable [err] of
    [New]; the second component is the value it leaves there. *)
Definition corewrap (env : Env) (configuration : LoggingConfiguration)
    (core : Core) : M (Core * option error) :=
  if negb (String.eqb (GraylogAddress configuration) "") then
    match net_DialTimeout env "udp" (GraylogAddress configuration) 15 with
    | inr e =>
        _ <- fmt_Println "could not connect with graylog, falling back to stdout" ;;
        ret (core, Some e)
    | inl c =>
        let w := {| conn := Some c;
                    chunkSize := DefaultChunkSize;
                    chunkDataSize := DefaultChunkSize - 12;
                    compressionType := CompressionGzip;
                    compressionLevel := BestCompression |} in
        ret (GraylogCore w, None)
    end
  else ret (core, None).

(** [loggerConf.Build(zap.WrapCore(wrap), zap.Fields(fields...))]: zap builds
    its encoder and sinks, fails if it cannot, and otherwise applies the
    options to the logger around its own core. *)
Definition zap_Build (env : Env) (wrap : Core -> M (Core * option error))
    (fields : list Field) : M (option Logger * option error) :=
  match zap_Build_error env with
  | Some e => ret (None, Some e)
  | None =>
      '(core, _) <- wrap ProductionCore ;;
      ret (Some (mkLogger core fields), None)
  end.

(** [New]: lines 66-121. *)
Definition New (env : Env) (configuration : LoggingConfiguration)
  : M (option Logger * option error) :=
  zap_Build env (corewrap env configuration)
    [ zap_Int "pid" (os_Getpid env);
      zap_String "app_name" (AppName configuration);
      zap_String "host" (Hostname configuration);
      zap_String "exe" (os_exe env);
      zap_String "version" "1.1" ].

(** ** Concrete environments, used to run the code on examples *)

(** A socket that accepts every datagram whole. *)
Definition accepting : Conn := fun _ p => (len p, None).


(** An environment whose entropy source always delivers the same eight bytes
    and whose compressors store their input unchanged. *)
Definition example_id : list byte := [xa1; xb2; xc3; xd4; xe5; xf6; x07; x18].

Definition example_env : Env :=
  {| gzip_output := fun _ b => b;
     zlib_output := fun _ b => b;
     rand_ReadFull := fun _ => (example_id, None);
     net_DialTimeout := fun _ _ _ => inr (ExtError "dial udp: i/o timeout");
     zap_Build_error := None;
     os_Getpid := 4242;
     os_exe := "logger.test" |}.

Definition world0 : World := mkWorld [] 0 [].

(** The writer that [New] builds, around a given socket and with a given
    compression type. *)
Definition default_writer (c : Conn) (compression : Z) : writer :=
  {| conn := Some c;
     chunkSize := DefaultChunkSize;
     chunkDataSize := DefaultChunkSize - 12;
     compressionType := compression;
     compressionLevel := BestCompression |}.

Definition zeroes (n : nat) : list byte := repeat x00 n.

(** An environment in which the dial succeeds, on a socket that accepts
    every datagram; the rest is as in [example_env]. *)
Definition dialing_env : Env :=
  {| gzip_output := fun _ b => b;
     zlib_output := fun _ b => b;
     rand_ReadFull := fun _ => (example_id, None);
     net_DialTimeout := fun _ _ _ => inl accepting;
     zap_Build_error := None;
     os_Getpid := 4242;
     os_exe := "logger.test" |}.

(** An environment whose entropy source delivers three bytes and fails. *)
Definition starved_env : Env :=
  {| gzip_output := fun _ b => b;
     zlib_output := fun _ b => b;
     rand_ReadFull := fun _ => ([xa1; xb2; xc3], Some (ExtError "unexpected EOF"));
     net_DialTimeout := fun _ _ _ => inl accepting;
     zap_Build_error := None;
     os_Getpid := 4242;
     os_exe := "logger.test" |}.

(** ** Vocabulary of the statements *)

(** The payload and the datagram of position [i] in a message of [nChunks]
    chunks, as the wire format lays them out. *)
Definition chunk_payload (w : writer) (cBytes : list byte) (i : nat) : list byte :=
  firstn (Z.to_nat (chunkDataSize w))
    (skipn (i * Z.to_nat (chunkDataSize w)) cBytes).

Definition chunk_datagram (w : writer) (messageID : list byte) (nChunks : Z)
    (cBytes : list byte) (i : nat) : list byte :=
  chunkedMagicBytes ++ messageID ++ [byte_of_uint8 (Z.of_nat i)]
    ++ [byte_of_uint8 nChunks] ++ chunk_payload w cBytes i.

(** The value of [bytesLeft] when iteration [i] starts. *)
Definition bytesLeft_at (w : writer) (cBytes : list byte) (i : nat) : Z :=
  Z.max 0 (len cBytes - Z.of_nat i * chunkDataSize w).

(** The world after the datagrams [ds] were handed to the socket, in order. *)
Definition handed (ds : list (list byte)) (s : World) : World :=
  mkWorld (sent s ++ ds) (entropy_reads s) (stdout s).

(** The world after one read of the entropy source. *)
Definition drawn (s : World) : World :=
  mkWorld (sent s) (S (entropy_reads s)) (stdout s).

(** What [Write] returns on the unchunked path for a socket reply. *)
Definition unchunked_result (cBytes : list byte) (reply : Z * option error)
  : Z * option error :=
  match reply with
  | (n, Some e) => (n, Some e)
  | (n, None) =>
      if n =? len cBytes then (n, None)
      else (n, Some (ErrShortWrite n (len cBytes)))
  end.

(** The quotient rounded up, for positive [b]. *)
Definition ceil_div (a b : Z) : Z := (a + b - 1) / b.

(** * Properties *)

(** ** Integers, bytes and slices *)

Lemma wrap64_id (z : Z) : min_int <= z <= max_int -> wrap64 z = z.
Proof.
  unfold wrap64, min_int, max_int. intros H.
  rewrite Z.mod_small; lia.
Qed.

Lemma uint8_id (z : Z) : 0 <= z < 256 -> uint8 z = z.
Proof. intros H. unfold uint8. apply Z.mod_small. exact H. Qed.

Lemma byte_of_uint8_value (z : Z) :
  0 <= z < 256 -> Z.of_N (Byte.to_N (byte_of_uint8 z)) = z.
Proof.
  intros H. unfold byte_of_uint8. rewrite uint8_id by exact H.
  destruct (Byte.of_N (Z.to_N z)) as [b|] eqn:E.
  - apply Byte.to_of_N in E. rewrite E. lia.
  - apply Byte.of_N_None_iff in E. lia.
Qed.

Lemma len_nonneg (b : list byte) : 0 <= len b.
Proof. unfold len. lia. Qed.


Lemma slice_in_range (s : list byte) (lo hi : Z) :
  0 <= lo <= hi -> hi <= len s ->
  slice s lo hi = Some (firstn (Z.to_nat (hi - lo)) (skipn (Z.to_nat lo) s)).
Proof.
  intros H1 H2. unfold slice.
  replace (0 <=? lo) with true by (symmetry; apply Z.leb_le; lia).
  replace (lo <=? hi) with true by (symmetry; apply Z.leb_le; lia).
  replace (hi <=? len s) with true by (symmetry; apply Z.leb_le; lia).
  reflexivity.
Qed.

(** The counter of the [for] loop: after [k] increments from 0 it is [k],
    and the guard [i < nChunks] holds exactly while [k] is below [nChunks].
    This is what lets [chunkLoop] count the iterations that remain. *)
Lemma for_counter (nChunks : Z) (k : nat) :
  0 <= nChunks < 256 -> (k <= Z.to_nat nChunks)%nat ->
  Nat.iter k (fun i => uint8 (i + 1)) 0 = Z.of_nat k.
Proof.
  intros Hn. induction k as [|k IH]; intros Hk; [reflexivity|].
  rewrite Nat.iter_succ, IH by lia. rewrite uint8_id by lia. lia.
Qed.

Lemma for_guard (nChunks : Z) (k : nat) :
  0 <= nChunks < 256 -> (k <= Z.to_nat nChunks)%nat ->
  (Nat.iter k (fun i => uint8 (i + 1)) 0 <? nChunks)
    = (k <? Z.to_nat nChunks)%nat.
Proof.
  intros Hn Hk. rewrite (for_counter nChunks) by assumption.
  destruct (Nat.ltb_spec k (Z.to_nat nChunks)).
  - apply Z.ltb_lt. lia.
  - apply Z.ltb_ge. lia.
Qed.

(** ** The send loop *)

Section SendLoop.
Variables (w : writer) (messageID : list byte) (nChunks : Z) (cBytes : list byte).
Hypothesis capacity_positive : 0 < chunkDataSize w.
Hypothesis length_is_int : len cBytes <= max_int.

Local Abbreviation D := (chunkDataSize w).
Local Abbreviation datagram := (chunk_datagram w messageID nChunks cBytes).
Local Abbreviation loop := (chunkLoop w messageID nChunks cBytes).
Local Abbreviation left_at := (bytesLeft_at w cBytes).

(** The slice of iteration [i] is the payload of position [i]. *)
Lemma slice_is_chunk_payload (i : nat) :
  Z.of_nat i * D <= len cBytes ->
  let off := int_mul (Z.of_nat i) D in
  let chunkLen := if D >? left_at i then left_at i else D in
  slice cBytes off (int_add off chunkLen) = Some (chunk_payload w cBytes i)
  /\ int_sub (len cBytes) (left_at i) = Z.of_nat i * D
  /\ int_sub (left_at i) chunkLen = left_at (S i).
Proof.
  intros Hi off chunkLen.
  assert (Hmax : max_int = 9223372036854775807) by reflexivity.
  assert (Hmin : min_int = -9223372036854775808) by reflexivity.
  assert (Hoff : off = Z.of_nat i * D).
  { unfold off, int_mul. apply wrap64_id. nia. }
  assert (Hleft : left_at i = len cBytes - Z.of_nat i * D).
  { unfold bytesLeft_at. lia. }
  assert (Hcl : chunkLen = Z.min D (left_at i)).
  { unfold chunkLen. destruct (D >? left_at i) eqn:E.
    - apply Z.gtb_lt in E. lia.
    - rewrite Z.gtb_ltb in E. apply Z.ltb_ge in E. lia. }
  assert (Hnext : left_at (S i) = left_at i - chunkLen).
  { unfold bytesLeft_at in *. nia. }
  repeat split.
  - unfold int_add. rewrite wrap64_id by nia.
    rewrite slice_in_range by nia.
    f_equal. unfold chunk_payload.
    replace (Z.to_nat off) with (i * Z.to_nat D)%nat by nia.
    replace (off + chunkLen - off) with chunkLen by lia.
    destruct (Z.le_gt_cases D (left_at i)) as [Hfull | Hshort].
    + replace chunkLen with D by lia. reflexivity.
    + rewrite !firstn_all2; [reflexivity | |];
        rewrite length_skipn; unfold len in *; nia.
  - unfold int_sub. rewrite wrap64_id; lia.
  - unfold int_sub. rewrite wrap64_id; [lia|].
    pose proof (len_nonneg cBytes). lia.
Qed.

(** One iteration, when the payload still reaches position [i]. *)
Lemma chunkLoop_step (todo i : nat) (c : Conn) (s : World) :
  conn w = Some c ->
  Z.of_nat i * D <= len cBytes ->
  Z.of_nat i < 255 ->
  loop (S todo) (Z.of_nat i) (left_at i) s =
    let d := datagram i in
    match c (length (sent s)) d with
    | (n, Some e) =>
        (Returned (inl (int_add (Z.of_nat i * D) n, Some e)), handed [d] s)
    | (n, None) =>
        if n =? len d
        then loop todo (Z.of_nat (S i)) (left_at (S i)) (handed [d] s)
        else
          let sofar := int_add (Z.of_nat i * D) n in
          (Returned (inl (sofar, Some (ErrShortWrite sofar (len cBytes)))),
           handed [d] s)
    end.
Proof.
  intros Hc Hi H255.
  destruct (slice_is_chunk_payload i Hi) as (Hslice & Hsent & Hnext).
  cbn [chunkLoop]. cbv zeta in Hslice, Hsent, Hnext |- *.
  rewrite Hslice, Hsent, Hnext, Hc.
  unfold bind, conn_Write, chunk_datagram, handed.
  destruct (c _ _) as [n [e|]]; [reflexivity|].
  destruct (n =? _); cbn [negb]; [|reflexivity].
  rewrite uint8_id by lia.
  replace (Z.of_nat i + 1) with (Z.of_nat (S i)) by lia.
  reflexivity.
Qed.

Lemma handed_nil (s : World) : handed [] s = s.
Proof. destruct s. unfold handed. cbn. rewrite app_nil_r. reflexivity. Qed.

Lemma handed_handed (ds1 ds2 : list (list byte)) (s : World) :
  handed ds2 (handed ds1 s) = handed (ds1 ++ ds2) s.
Proof. unfold handed. cbn. rewrite app_assoc. reflexivity. Qed.

(** Without a socket the first iteration panics before anything is sent. *)
Lemma chunkLoop_nil_conn (todo i : nat) (s : World) :
  conn w = None ->
  Z.of_nat i * D <= len cBytes ->
  loop (S todo) (Z.of_nat i) (left_at i) s = (Panicked NilDereference, s).
Proof.
  intros Hc Hi.
  destruct (slice_is_chunk_payload i Hi) as (Hslice & _ & _).
  cbn [chunkLoop]. cbv zeta in Hslice |- *.
  rewrite Hslice, Hc. reflexivity.
Qed.

(** Whatever the socket replies, the datagrams handed to it are the wire
    datagrams of consecutive positions; the loop ends normally only after
    all of them, with the bytes left after the last. *)
Lemma chunkLoop_trace (todo : nat) :
  forall (i : nat) (s s' : World) r,
    (Z.of_nat (i + todo) - 1) * D <= len cBytes ->
    Z.of_nat (i + todo) <= 255 ->
    loop todo (Z.of_nat i) (left_at i) s = (r, s') ->
    exists m : nat,
      (m <= todo)%nat
      /\ s' = handed (map datagram (seq i m)) s
      /\ (forall bytesLeft, r = Returned (inr bytesLeft) ->
            m = todo /\ bytesLeft = left_at (i + todo))
      /\ (forall n, r <> Returned (inl (n, None)))
      /\ (forall p, r = Panicked p -> p = NilDereference).
Proof.
  induction todo as [|todo IH]; intros i s s' r Hreach H255 Hrun.
  - cbn in Hrun. injection Hrun as <- <-. exists 0%nat.
    rewrite handed_nil, Nat.add_0_r.
    split; [lia|]. split; [reflexivity|]. split; [|split].
    + intros bytesLeft Hr. injection Hr as <-. split; reflexivity.
    + intros n. discriminate.
    + intros p. discriminate.
  - assert (Hi : Z.of_nat i * D <= len cBytes) by nia.
    assert (Hstop : forall e : Z * option error,
               snd e <> None ->
               (Returned (inl e), handed [datagram i] s) = (r, s') ->
               exists m : nat,
                 (m <= S todo)%nat
                 /\ s' = handed (map datagram (seq i m)) s
                 /\ (forall bytesLeft, r = Returned (inr bytesLeft) ->
                       m = S todo /\ bytesLeft = left_at (i + S todo))
                 /\ (forall n, r <> Returned (inl (n, None)))
                 /\ (forall p, r = Panicked p -> p = NilDereference)).
    { intros e He Heq. injection Heq as <- <-. exists 1%nat.
      split; [lia|]. split; [reflexivity|]. split; [|split].
      - intros bytesLeft. discriminate.
      - intros n Hr. injection Hr as ->. apply He. reflexivity.
      - intros p. discriminate. }
    destruct (conn w) as [c|] eqn:Hc.
    + rewrite (chunkLoop_step todo i c s Hc Hi) in Hrun by lia.
      cbv zeta in Hrun.
      destruct (c (length (sent s)) (datagram i)) as [n [e|]] eqn:Hreply.
      * eapply Hstop; [|exact Hrun]; cbn; discriminate.
      * destruct (n =? len (datagram i)).
        -- assert (Hreach' : (Z.of_nat (S i + todo) - 1) * D <= len cBytes).
           { replace (S i + todo)%nat with (i + S todo)%nat by lia. exact Hreach. }
           assert (H255' : Z.of_nat (S i + todo) <= 255) by lia.
           destruct (IH (S i) _ _ _ Hreach' H255' Hrun)
             as (m & Hm & Hs & Hend & Herr & Hpanic).
           exists (S m). rewrite Hs, handed_handed.
           split; [lia|]. split; [reflexivity|].
           split; [|split; [exact Herr | exact Hpanic]].
           intros bytesLeft Hr. destruct (Hend _ Hr) as [-> ->].
           split; [reflexivity | f_equal; lia].
        -- eapply Hstop; [|exact Hrun]; cbn; discriminate.
    + rewrite (chunkLoop_nil_conn todo i s Hc Hi) in Hrun.
      injection Hrun as <- <-. exists 0%nat. rewrite handed_nil.
      split; [lia|]. split; [reflexivity|]. split; [|split].
      * intros bytesLeft. discriminate.
      * intros n. discriminate.
      * intros p Hp. injection Hp as <-. reflexivity.
Qed.

(** While the socket accepts the datagrams whole, the loop moves on. *)
Lemma chunkLoop_accepted_prefix (c : Conn) (m : nat) :
  forall (todo i : nat) (s : World),
    conn w = Some c ->
    (Z.of_nat (i + m) - 1) * D <= len cBytes ->
    Z.of_nat (i + m) <= 255 ->
    (forall j : nat, (j < m)%nat ->
       c (length (sent s) + j)%nat (datagram (i + j)) =
         (len (datagram (i + j)), None)) ->
    loop (m + todo) (Z.of_nat i) (left_at i) s =
      loop todo (Z.of_nat (i + m)) (left_at (i + m))
        (handed (map datagram (seq i m)) s).
Proof.
  induction m as [|m IH]; intros todo i s Hc Hreach H255 Hacc.
  - cbn [seq map Nat.add]. rewrite handed_nil, Nat.add_0_r. reflexivity.
  - assert (Hi : Z.of_nat i * D <= len cBytes) by nia.
    cbn [Nat.add].
    rewrite (chunkLoop_step (m + todo) i c s Hc Hi) by lia.
    cbv zeta.
    pose proof (Hacc 0%nat ltac:(lia)) as H0.
    rewrite !Nat.add_0_r in H0. rewrite H0, Z.eqb_refl.
    rewrite IH.
    + rewrite handed_handed. cbn [seq map app].
      replace (S i + m)%nat with (i + S m)%nat by lia. reflexivity.
    + exact Hc.
    + replace (S i + m)%nat with (i + S m)%nat by lia. exact Hreach.
    + lia.
    + intros j Hj. specialize (Hacc (S j) ltac:(lia)).
      unfold handed. cbn [sent]. rewrite length_app. cbn [length].
      replace (length (sent s) + 1 + j)%nat with (length (sent s) + S j)%nat by lia.
      replace (S i + j)%nat with (i + S j)%nat by lia.
      exact Hacc.
Qed.

(** The bytes that the first [k] positions carry. *)
Lemma left_at_reached (k : nat) :
  Z.of_nat k * D <= len cBytes ->
  left_at k = len cBytes - Z.of_nat k * D.
Proof. intros H. unfold bytesLeft_at. lia. Qed.
End SendLoop.

(** ** Chunk counting *)

Lemma chunkCount_unchunked (w : writer) (b : list byte) :
  len b <= chunkSize w -> chunkCount w b = Returned 1.
Proof.
  intros H. unfold chunkCount. cbv zeta.
  apply Z.leb_le in H. rewrite H. reflexivity.
Qed.

(** Above the limit the count is the quotient plus one. The length of a
    slice stays below [max_int], so the addition does not wrap. *)
Lemma chunkCount_chunked (w : writer) (b : list byte) :
  0 < chunkDataSize w -> chunkSize w < len b < max_int ->
  chunkCount w b = Returned (len b / chunkDataSize w + 1).
Proof.
  intros HD [Hgt Hint]. unfold chunkCount. cbv zeta.
  apply Z.leb_gt in Hgt. rewrite Hgt.
  replace (chunkDataSize w =? 0) with false by (symmetry; apply Z.eqb_neq; lia).
  pose proof (len_nonneg b) as H0.
  assert (Hq : 0 <= len b / chunkDataSize w <= len b).
  { split; [apply Z.div_pos; lia|].
    apply Z.div_le_upper_bound; nia. }
  assert (Hmax : max_int = 9223372036854775807) by reflexivity.
  assert (Hmin : min_int = -9223372036854775808) by reflexivity.
  unfold int_add, int_quot.
  rewrite Z.quot_div_nonneg by lia.
  rewrite (wrap64_id (len b / chunkDataSize w)) by lia.
  f_equal. apply wrap64_id. lia.
Qed.

(** A count above one comes from a positive capacity and a length above the
    limit. *)
Lemma chunkCount_above_one (w : writer) (b : list byte) (count : Z) :
  len b < max_int ->
  chunkCount w b = Returned count -> 1 < count ->
  0 < chunkDataSize w /\ chunkSize w < len b
  /\ count = len b / chunkDataSize w + 1.
Proof.
  intros Hint Hcount Hone.
  pose proof (len_nonneg b) as H0.
  assert (Hmax : max_int = 9223372036854775807) by reflexivity.
  assert (Hmin : min_int = -9223372036854775808) by reflexivity.
  destruct (Z.leb_spec (len b) (chunkSize w)) as [Hle | Hgt].
  { rewrite chunkCount_unchunked in Hcount by exact Hle.
    injection Hcount as <-. lia. }
  destruct (Z.lt_trichotomy (chunkDataSize w) 0) as [Hneg | [Hzero | Hpos]].
  - exfalso. unfold chunkCount in Hcount. cbv zeta in Hcount.
    replace (len b <=? chunkSize w) with false in Hcount
      by (symmetry; apply Z.leb_gt; lia).
    replace (chunkDataSize w =? 0) with false in Hcount
      by (symmetry; apply Z.eqb_neq; lia).
    injection Hcount as <-.
    assert (Hq : - len b <= Z.quot (len b) (chunkDataSize w) <= 0).
    { rewrite <- (Z.opp_involutive (chunkDataSize w)), Z.quot_opp_r by lia.
      rewrite Z.quot_div_nonneg by lia.
      assert (0 <= len b / - chunkDataSize w <= len b); [|lia].
      split; [apply Z.div_pos; lia|].
      apply Z.div_le_upper_bound; nia. }
    unfold int_add, int_quot in Hone.
    rewrite (wrap64_id (Z.quot _ _)) in Hone by lia.
    rewrite wrap64_id in Hone by lia. lia.
  - exfalso. unfold chunkCount in Hcount. cbv zeta in Hcount.
    replace (len b <=? chunkSize w) with false in Hcount
      by (symmetry; apply Z.leb_gt; lia).
    rewrite Hzero in Hcount. cbn in Hcount. discriminate.
  - rewrite chunkCount_chunked in Hcount by lia.
    injection Hcount as <-. lia.
Qed.

(** The last position that the count covers still starts inside the payload. *)
Lemma last_chunk_reached (w : writer) (b : list byte) :
  0 < chunkDataSize w ->
  (len b / chunkDataSize w) * chunkDataSize w <= len b.
Proof.
  intros HD. pose proof (len_nonneg b).
  pose proof (Z.mul_div_le (len b) (chunkDataSize w) HD). lia.
Qed.

(** ** The stages of [Write] *)

Lemma Write_after_compression (env : Env) (w : writer) (buf cBytes : list byte) :
  compressStage env w buf = Returned (inr cBytes) ->
  Write env w buf = sendStage env w cBytes.
Proof. intros H. unfold Write. rewrite H. reflexivity. Qed.

(** With [CompressionNone] the bytes go to the writer's own copy of the
    buffer: [cBuf] stays empty whatever the input. *)
Lemma compressStage_none (env : Env) (w : writer) (buf : list byte) :
  compressionType w = CompressionNone ->
  compressStage env w buf = Returned (inr []).
Proof. intros H. unfold compressStage. rewrite H. reflexivity. Qed.

Lemma compressStage_gzip (env : Env) (w : writer) (buf : list byte) :
  compressionType w = CompressionGzip ->
  HuffmanOnly <= compressionLevel w <= BestCompression ->
  compressStage env w buf =
    Returned (inr (gzip_output env (compressionLevel w) buf)).
Proof.
  intros H [Hlo Hhi]. unfold compressStage, gzip_NewWriterLevel. rewrite H.
  cbn [Z.eqb CompressionGzip CompressionNone].
  replace (compressionLevel w <? HuffmanOnly) with false
    by (symmetry; apply Z.ltb_ge; exact Hlo).
  replace (compressionLevel w >? BestCompression) with false
    by (symmetry; rewrite Z.gtb_ltb; apply Z.ltb_ge; exact Hhi).
  reflexivity.
Qed.

Lemma compressStage_zlib (env : Env) (w : writer) (buf : list byte) :
  compressionType w = CompressionZlib ->
  HuffmanOnly <= compressionLevel w <= BestCompression ->
  compressStage env w buf =
    Returned (inr (zlib_output env (compressionLevel w) buf)).
Proof.
  intros H [Hlo Hhi]. unfold compressStage, zlib_NewWriterLevel. rewrite H.
  cbn [Z.eqb CompressionZlib CompressionGzip CompressionNone].
  replace (compressionLevel w <? HuffmanOnly) with false
    by (symmetry; apply Z.ltb_ge; exact Hlo).
  replace (compressionLevel w >? BestCompression) with false
    by (symmetry; rewrite Z.gtb_ltb; apply Z.ltb_ge; exact Hhi).
  reflexivity.
Qed.

Lemma sendStage_chunked (env : Env) (w : writer) (cBytes : list byte) (count : Z) :
  chunkCount w cBytes = Returned count -> 1 < count ->
  sendStage env w cBytes = writeChunked env w count cBytes.
Proof.
  intros Hc H1. unfold sendStage. rewrite Hc.
  replace (count >? 1) with true by (symmetry; apply Z.gtb_lt; exact H1).
  reflexivity.
Qed.

Lemma sendStage_unchunked (env : Env) (w : writer) (c : Conn)
    (cBytes : list byte) (s : World) :
  conn w = Some c -> len cBytes <= chunkSize w ->
  sendStage env w cBytes s =
    (Returned (unchunked_result cBytes (c (length (sent s)) cBytes)),
     handed [cBytes] s).
Proof.
  intros Hc Hle. unfold sendStage.
  rewrite chunkCount_unchunked by exact Hle.
  change (1 >? 1) with false. cbv iota.
  unfold bind, conn_Write, unchunked_result, handed.
  rewrite Hc. destruct (c _ _) as [n [e|]]; [reflexivity|].
  destruct (n =? len cBytes); reflexivity.
Qed.

(** ** Reassembly of the payload from the chunk payloads *)




(** ** [writeChunked] as a whole *)

Lemma messageID_length (got : list byte) :
  length (firstn 8 (got ++ repeat x00 8)) = 8%nat.
Proof. rewrite length_firstn, length_app, repeat_length. lia. Qed.

Lemma messageID_read (got : list byte) :
  length got = 8%nat -> firstn 8 (got ++ repeat x00 8) = got.
Proof.
  intros H. rewrite firstn_app, H, Nat.sub_diag, firstn_O, app_nil_r.
  apply firstn_all2. lia.
Qed.

(** The count that [chunkCount] hands to [writeChunked] covers the payload:
    after the last position nothing is left. *)
Lemma nothing_left_after_count (w : writer) (cBytes : list byte) :
  0 < chunkDataSize w ->
  bytesLeft_at w cBytes (Z.to_nat (len cBytes / chunkDataSize w + 1)) = 0.
Proof.
  intros HD. unfold bytesLeft_at.
  pose proof (len_nonneg cBytes) as H0.
  pose proof (Z.div_pos (len cBytes) (chunkDataSize w) H0 HD) as Hq.
  pose proof (Z.mod_pos_bound (len cBytes) (chunkDataSize w) HD) as Hr.
  pose proof (Z.div_mod (len cBytes) (chunkDataSize w) ltac:(lia)) as Hdm.
  rewrite Z2Nat.id by lia. nia.
Qed.

(** Whatever the environment does, [writeChunked] hands to the socket the
    wire datagrams of positions [0 .. m-1] for some [m] up to the count, all
    under one 8-byte message ID, and it reports success only after all
    [count] of them, with the whole length as byte count. *)
Lemma writeChunked_trace (env : Env) (w : writer) (cBytes : list byte)
    (s s' : World) r :
  let count := len cBytes / chunkDataSize w + 1 in
  0 < chunkDataSize w -> len cBytes < max_int ->
  writeChunked env w count cBytes s = (r, s') ->
  exists (messageID : list byte) (m : nat),
    length messageID = 8%nat
    /\ Z.of_nat m <= count
    /\ (m <> 0%nat -> count <= MaxChunkCount)
    /\ sent s' = sent s ++ map (chunk_datagram w messageID count cBytes) (seq 0 m)
    /\ (forall n, r = Returned (n, None) ->
          Z.of_nat m = count /\ n = len cBytes)
    /\ r <> Panicked SliceBounds.
Proof.
  intros count HD Hint Hrun.
  pose proof (len_nonneg cBytes) as H0.
  assert (Hq : 0 <= len cBytes / chunkDataSize w) by (apply Z.div_pos; lia).
  assert (Hnone : forall messageID : list byte,
             length messageID = 8%nat ->
             (forall n, r <> Returned (n, None)) ->
             r <> Panicked SliceBounds -> sent s' = sent s ->
             exists (messageID : list byte) (m : nat),
               length messageID = 8%nat /\ Z.of_nat m <= count
               /\ (m <> 0%nat -> count <= MaxChunkCount)
               /\ sent s' = sent s
                    ++ map (chunk_datagram w messageID count cBytes) (seq 0 m)
               /\ (forall n, r = Returned (n, None) ->
                     Z.of_nat m = count /\ n = len cBytes)
               /\ r <> Panicked SliceBounds).
  { intros messageID Hid Hr Hp Hs. exists messageID, 0%nat.
    cbn [seq map]. rewrite app_nil_r.
    split; [exact Hid|]. split; [cbn; lia|]. split; [congruence|].
    split; [exact Hs|]. split; [|exact Hp].
    intros n Hn. exfalso. apply (Hr n Hn). }
  unfold writeChunked in Hrun.
  destruct (count >? MaxChunkCount) eqn:Hmax.
  { injection Hrun as <- <-.
    apply (Hnone (repeat x00 8)); reflexivity || discriminate. }
  rewrite Z.gtb_ltb in Hmax. apply Z.ltb_ge in Hmax.
  destruct (chunkSize w <? 0).
  { injection Hrun as <- <-.
    apply (Hnone (repeat x00 8)); reflexivity || discriminate. }
  unfold bind at 1, io_ReadFull_rand in Hrun.
  destruct (rand_ReadFull env (entropy_reads s)) as [got err].
  set (messageID := firstn 8 (got ++ repeat x00 8)) in *.
  assert (Hid : length messageID = 8%nat) by apply messageID_length.
  destruct err as [e|].
  { injection Hrun as <- <-.
    apply (Hnone messageID); exact Hid || reflexivity || discriminate. }
  destruct (len (firstn 8 got) =? 8).
  2:{ injection Hrun as <- <-.
      apply (Hnone messageID); exact Hid || reflexivity || discriminate. }
  unfold MaxChunkCount in Hmax.
  rewrite uint8_id in Hrun by (fold count; lia).
  unfold bind in Hrun.
  destruct (chunkLoop w messageID count cBytes (Z.to_nat count) 0 (len cBytes)
              (mkWorld (sent s) (S (entropy_reads s)) (stdout s)))
    as [r0 s0] eqn:Hloop.
  assert (Hloop' : chunkLoop w messageID count cBytes (Z.to_nat count)
                     (Z.of_nat 0) (bytesLeft_at w cBytes 0)
                     (mkWorld (sent s) (S (entropy_reads s)) (stdout s))
                   = (r0, s0)).
  { replace (bytesLeft_at w cBytes 0) with (len cBytes)
      by (unfold bytesLeft_at; lia).
    exact Hloop. }
  clear Hloop. rename Hloop' into Hloop.
  apply chunkLoop_trace in Hloop.
  - destruct Hloop as (m & Hm & Hs0 & Hend & Herr & Hpanic).
    exists messageID, m.
    assert (Hsent : sent s' = sent s
                      ++ map (chunk_datagram w messageID count cBytes) (seq 0 m)).
    { destruct r0 as [[early | bytesLeft] | p].
      - injection Hrun as <- <-. rewrite Hs0. reflexivity.
      - destruct (negb (bytesLeft =? 0)); injection Hrun as <- <-;
          rewrite Hs0; reflexivity.
      - injection Hrun as <- <-. rewrite Hs0. reflexivity. }
    split; [exact Hid|]. split; [lia|].
    split; [unfold MaxChunkCount; lia|]. split; [exact Hsent|]. split.
    + intros n Hr.
      destruct r0 as [[[n0 e0] | bytesLeft] | p].
      * injection Hrun as Hr0 _. rewrite Hr in Hr0. injection Hr0 as -> ->.
        exfalso. apply (Herr n). reflexivity.
      * destruct (Hend bytesLeft eq_refl) as [-> ->].
        cbn [Nat.add] in Hrun. unfold count in Hrun.
        rewrite nothing_left_after_count in Hrun by exact HD.
        cbn in Hrun. injection Hrun as Hr0 _. rewrite Hr in Hr0.
        injection Hr0 as ->. split; [lia | reflexivity].
      * injection Hrun as Hr0 _. rewrite Hr in Hr0. discriminate.
    + intros Hr.
      destruct r0 as [[early | bytesLeft] | p].
      * injection Hrun as Hr0 _. rewrite Hr in Hr0. discriminate.
      * destruct (negb (bytesLeft =? 0)); injection Hrun as Hr0 _;
          rewrite Hr in Hr0; discriminate.
      * injection Hrun as Hr0 _. rewrite Hr in Hr0.
        injection Hr0 as ->. specialize (Hpanic _ eq_refl). discriminate.
  - exact HD.
  - lia.
  - cbn [Nat.add]. rewrite Z2Nat.id by lia.
    unfold count. replace (len cBytes / chunkDataSize w + 1 - 1)
      with (len cBytes / chunkDataSize w) by lia.
    apply last_chunk_reached. exact HD.
  - cbn [Nat.add]. rewrite Z2Nat.id by lia. lia.
Qed.

(** The slices that [Write] takes stay within the payload: no run of
    [sendStage] ends in a slice-bounds panic. *)
Lemma sendStage_never_slices_out_of_range (env : Env) (w : writer)
    (cBytes : list byte) (s : World) :
  len cBytes < max_int ->
  fst (sendStage env w cBytes s) <> Panicked SliceBounds.
Proof.
  intros Hint. unfold sendStage.
  destruct (chunkCount w cBytes) as [count | p] eqn:Hcount.
  - destruct (count >? 1) eqn:Hone.
    + apply Z.gtb_lt in Hone.
      destruct (chunkCount_above_one w cBytes count Hint Hcount Hone)
        as (HD & _ & ->).
      destruct (writeChunked env w _ cBytes s) as [r s'] eqn:Hrun.
      destruct (writeChunked_trace env w cBytes s s' r HD Hint Hrun)
        as (_ & _ & _ & _ & _ & _ & _ & Hp).
      exact Hp.
    + unfold bind, conn_Write.
      destruct (conn w) as [c|]; [|cbn; discriminate].
      destruct (c _ _) as [n [e|]]; [cbn; discriminate|].
      destruct (negb (n =? len cBytes)); cbn; discriminate.
  - unfold chunkCount in Hcount. cbv zeta in Hcount.
    destruct (len cBytes <=? chunkSize w); [discriminate|].
    destruct (chunkDataSize w =? 0); [|discriminate].
    injection Hcount as <-. cbn. discriminate.
Qed.

(** The start of [writeChunked] when the count is within bounds and the
    entropy source delivers eight bytes. *)
Lemma writeChunked_enters_loop (env : Env) (w : writer) (count : Z)
    (cBytes got : list byte) (s : World) :
  0 <= count <= MaxChunkCount -> 0 <= chunkSize w ->
  rand_ReadFull env (entropy_reads s) = (got, None) -> length got = 8%nat ->
  writeChunked env w count cBytes s =
    match chunkLoop w got count cBytes (Z.to_nat count) (Z.of_nat 0)
            (bytesLeft_at w cBytes 0) (drawn s) with
    | (Returned (inl early), s') => (Returned early, s')
    | (Returned (inr bytesLeft), s') =>
        (Returned (if bytesLeft =? 0 then (len cBytes, None)
                   else (int_sub (len cBytes) bytesLeft,
                         Some (ErrBytesLeft bytesLeft))), s')
    | (Panicked p, s') => (Panicked p, s')
    end.
Proof.
  intros Hcount Hsize Hrand Hgot. unfold MaxChunkCount in Hcount.
  unfold writeChunked.
  replace (count >? MaxChunkCount) with false
    by (symmetry; rewrite Z.gtb_ltb; apply Z.ltb_ge; unfold MaxChunkCount; lia).
  replace (chunkSize w <? 0) with false by (symmetry; apply Z.ltb_ge; exact Hsize).
  unfold bind at 1, io_ReadFull_rand. rewrite Hrand.
  rewrite (messageID_read got Hgot).
  rewrite (firstn_all2 got) by lia.
  unfold len at 1. rewrite Hgot. cbn [Z.of_nat Pos.of_succ_nat Pos.succ Z.eqb Pos.eqb].
  rewrite uint8_id by lia.
  replace (bytesLeft_at w cBytes 0) with (len cBytes)
    by (unfold bytesLeft_at; pose proof (len_nonneg cBytes); lia).
  unfold bind, drawn. cbn [Z.of_nat].
  destruct (chunkLoop _ _ _ _ _ _ _ _) as [[[early | bytesLeft] | p] s'];
    try reflexivity.
  destruct (bytesLeft =? 0); reflexivity.
Qed.



(** When the socket accepts every chunk whole, [writeChunked] hands over
    all the chunks and returns the length of the payload. *)
Lemma writeChunked_accepted (env : Env) (w : writer) (c : Conn)
    (cBytes got : list byte) (s : World) :
  let count := len cBytes / chunkDataSize w + 1 in
  let chunk := chunk_datagram w got count cBytes in
  conn w = Some c ->
  0 < chunkDataSize w -> len cBytes < max_int -> 0 <= chunkSize w ->
  count <= MaxChunkCount ->
  rand_ReadFull env (entropy_reads s) = (got, None) -> length got = 8%nat ->
  (forall j : nat, Z.of_nat j < count ->
     c (length (sent s) + j)%nat (chunk j) = (len (chunk j), None)) ->
  writeChunked env w count cBytes s =
    (Returned (len cBytes, None),
     handed (map chunk (seq 0 (Z.to_nat count))) (drawn s)).
Proof.
  intros count chunk Hc HD Hint Hsize Hmax Hrand Hgot Hacc.
  pose proof (len_nonneg cBytes) as H0.
  assert (Hq : 0 <= len cBytes / chunkDataSize w) by (apply Z.div_pos; lia).
  pose proof (last_chunk_reached w cBytes HD) as Hlast.
  unfold MaxChunkCount in Hmax.
  rewrite (writeChunked_enters_loop env w count cBytes got s)
    by (unfold MaxChunkCount; lia || assumption).
  replace (Z.to_nat count) with (Z.to_nat count + 0)%nat at 1 by lia.
  rewrite (chunkLoop_accepted_prefix w got count cBytes HD ltac:(lia) c).
  - cbn [chunkLoop Nat.add]. unfold ret. unfold count at 2.
    rewrite nothing_left_after_count by exact HD. reflexivity.
  - exact Hc.
  - cbn [Nat.add]. rewrite Z2Nat.id by lia. unfold count. nia.
  - cbn [Nat.add]. lia.
  - intros j Hj. cbn [Nat.add]. unfold drawn. cbn [sent]. apply Hacc. lia.
Qed.

(** With a socket, the loop hands over at least one datagram and stops before
    the last position only at a datagram that the socket did not take
    whole. *)
Lemma chunkLoop_stops_at_refusal (w : writer) (messageID : list byte)
    (nChunks : Z) (cBytes : list byte) (c : Conn) (todo : nat) :
  0 < chunkDataSize w -> len cBytes <= max_int -> conn w = Some c ->
  forall (i : nat) (s s' : World) r,
    (Z.of_nat (i + todo) - 1) * chunkDataSize w <= len cBytes ->
    Z.of_nat (i + todo) <= 255 ->
    chunkLoop w messageID nChunks cBytes todo (Z.of_nat i)
      (bytesLeft_at w cBytes i) s = (r, s') ->
    exists m : nat,
      (m <= todo)%nat
      /\ (todo <> 0%nat -> m <> 0%nat)
      /\ s' = handed (map (chunk_datagram w messageID nChunks cBytes) (seq i m)) s
      /\ (m = todo
          \/ exists m0 : nat,
               m = S m0
               /\ c (length (sent s) + m0)%nat
                    (chunk_datagram w messageID nChunks cBytes (i + m0))
                  <> (len (chunk_datagram w messageID nChunks cBytes (i + m0)),
                      None)).
Proof.
  intros HD Hint Hc.
  induction todo as [|todo IH]; intros i s s' r Hreach H255 Hrun.
  - cbn in Hrun. injection Hrun as _ <-. exists 0%nat. rewrite handed_nil.
    split; [lia|]. split; [congruence|]. split; [reflexivity | left; reflexivity].
  - assert (Hi : Z.of_nat i * chunkDataSize w <= len cBytes) by nia.
    rewrite (chunkLoop_step w messageID nChunks cBytes HD Hint todo i c s Hc Hi)
      in Hrun by lia.
    cbv zeta in Hrun.
    set (d := chunk_datagram w messageID nChunks cBytes i) in *.
    assert (Hstop : c (length (sent s)) d <> (len d, None) ->
                    s' = handed [d] s ->
                    exists m : nat,
                      (m <= S todo)%nat
                      /\ (S todo <> 0%nat -> m <> 0%nat)
                      /\ s' = handed (map (chunk_datagram w messageID nChunks cBytes)
                                        (seq i m)) s
                      /\ (m = S todo
                          \/ exists m0 : nat,
                               m = S m0
                               /\ c (length (sent s) + m0)%nat
                                    (chunk_datagram w messageID nChunks cBytes (i + m0))
                                  <> (len (chunk_datagram w messageID nChunks cBytes
                                             (i + m0)), None))).
    { intros Hrefused ->. exists 1%nat.
      split; [lia|]. split; [congruence|]. split; [reflexivity|].
      right. exists 0%nat. rewrite !Nat.add_0_r.
      split; [reflexivity | exact Hrefused]. }
    destruct (c (length (sent s)) d) as [n [e|]] eqn:Hreply.
    + apply Hstop; [discriminate|]. injection Hrun as _ <-. reflexivity.
    + destruct (n =? len d) eqn:Hn.
      * assert (Hreach' : (Z.of_nat (S i + todo) - 1) * chunkDataSize w
                          <= len cBytes).
        { replace (S i + todo)%nat with (i + S todo)%nat by lia. exact Hreach. }
        destruct (IH (S i) _ _ _ Hreach' ltac:(lia) Hrun)
          as (m & Hm & _ & Hs & Hwhy).
        exists (S m). rewrite Hs, handed_handed.
        split; [lia|]. split; [congruence|]. split; [reflexivity|].
        destruct Hwhy as [-> | (m0 & -> & Hrefused)]; [left; reflexivity|].
        right. exists (S m0). split; [reflexivity|].
        unfold handed in Hrefused. cbn [sent] in Hrefused.
        rewrite length_app in Hrefused. cbn [length] in Hrefused.
        replace (length (sent s) + S m0)%nat
          with (length (sent s) + 1 + m0)%nat by lia.
        replace (i + S m0)%nat with (S i + m0)%nat by lia.
        exact Hrefused.
      * apply Hstop; [|injection Hrun as _ <-; reflexivity].
        apply Z.eqb_neq in Hn. congruence.
Qed.

(** The same for [writeChunked], once the count is within bounds and the
    entropy source has delivered the message ID [got]. *)
Lemma writeChunked_stops_at_refusal (env : Env) (w : writer) (c : Conn)
    (cBytes got : list byte) (s : World) :
  let count := len cBytes / chunkDataSize w + 1 in
  let chunk := chunk_datagram w got count cBytes in
  conn w = Some c ->
  0 < chunkDataSize w -> len cBytes < max_int -> 0 <= chunkSize w ->
  count <= MaxChunkCount ->
  rand_ReadFull env (entropy_reads s) = (got, None) -> length got = 8%nat ->
  exists m : nat,
    snd (writeChunked env w count cBytes s) = handed (map chunk (seq 0 m)) (drawn s)
    /\ 1 <= Z.of_nat m <= count
    /\ (Z.of_nat m = count
        \/ exists m0 : nat,
             m = S m0
             /\ c (length (sent s) + m0)%nat (chunk m0) <> (len (chunk m0), None)).
Proof.
  intros count chunk Hc HD Hint Hsize Hmax Hrand Hgot.
  pose proof (len_nonneg cBytes) as H0.
  assert (Hq : 0 <= len cBytes / chunkDataSize w) by (apply Z.div_pos; lia).
  pose proof (last_chunk_reached w cBytes HD) as Hlast.
  unfold MaxChunkCount in Hmax.
  rewrite (writeChunked_enters_loop env w count cBytes got s)
    by (unfold MaxChunkCount; lia || assumption).
  destruct (chunkLoop w got count cBytes (Z.to_nat count) (Z.of_nat 0)
              (bytesLeft_at w cBytes 0) (drawn s)) as [r0 s0] eqn:Hloop.
  apply (chunkLoop_stops_at_refusal w got count cBytes c (Z.to_nat count)
           HD ltac:(lia) Hc) in Hloop.
  - destruct Hloop as (m & Hm & Hfirst & -> & Hwhy).
    exists m.
    split.
    { destruct r0 as [[early | bytesLeft] | p]; reflexivity. }
    split; [lia|].
    destruct Hwhy as [-> | (m0 & -> & Hrefused)]; [left; lia|].
    right. exists m0. split; [reflexivity|].
    cbn [Nat.add] in Hrefused. exact Hrefused.
  - cbn [Nat.add]. rewrite Z2Nat.id by lia. unfold count. nia.
  - cbn [Nat.add]. lia.
Qed.

(** ** Chunk count against the rounded-up quotient *)

(** Off the multiples of the capacity the count is the rounded-up quotient. *)
Lemma chunkCount_off_multiples (w : writer) (b : list byte) :
  0 < chunkDataSize w -> chunkSize w < len b < max_int ->
  len b mod chunkDataSize w <> 0 ->
  chunkCount w b = Returned (ceil_div (len b) (chunkDataSize w)).
Proof.
  intros HD Hlen Hrem. rewrite chunkCount_chunked by assumption.
  f_equal. unfold ceil_div.
  pose proof (Z.mod_pos_bound (len b) (chunkDataSize w) HD) as Hr.
  pose proof (Z.div_mod (len b) (chunkDataSize w) ltac:(lia)) as Hdm.
  apply Z.div_unique with (r := len b mod chunkDataSize w - 1); lia.
Qed.

(** On the multiples of the capacity it is one more than that. *)
Lemma chunkCount_on_multiples (w : writer) (b : list byte) :
  0 < chunkDataSize w -> chunkSize w < len b < max_int ->
  len b mod chunkDataSize w = 0 ->
  chunkCount w b = Returned (ceil_div (len b) (chunkDataSize w) + 1).
Proof.
  intros HD Hlen Hrem. rewrite chunkCount_chunked by assumption.
  f_equal. f_equal. unfold ceil_div.
  pose proof (Z.div_mod (len b) (chunkDataSize w) ltac:(lia)) as Hdm.
  apply Z.div_unique with (r := chunkDataSize w - 1); lia.
Qed.

(** In bytes: above the limit, the count stays within [MaxChunkCount]
    exactly for payloads shorter than 128 capacities. *)
Lemma count_within_maximum (w : writer) (b : list byte) (count : Z) :
  0 < chunkDataSize w -> chunkSize w < len b < max_int ->
  chunkCount w b = Returned count ->
  count <= MaxChunkCount <-> len b < MaxChunkCount * chunkDataSize w.
Proof.
  intros HD Hlen Hcount. rewrite chunkCount_chunked in Hcount by assumption.
  injection Hcount as <-. unfold MaxChunkCount.
  pose proof (Z.mod_pos_bound (len b) (chunkDataSize w) HD) as Hr.
  pose proof (Z.div_mod (len b) (chunkDataSize w) ltac:(lia)) as Hdm.
  split; intros H; nia.
Qed.

(** ** The claims *)

(** C1. The claim: above the single-datagram limit the chunk count is
    ceil(len / capacity), and a payload of an exact multiple of the capacity
    gets len / capacity chunks, none empty. The code computes
    [len / capacity + 1]: for the writer of [New] (limit 1420, capacity 1408)
    and a compressed payload of 2816 = 2 * 1408 bytes, [chunkCount] is 3
    where the rounded-up quotient is 2, and the third datagram handed to the
    socket is a bare 12-byte header. *)
Theorem exact_multiple_gets_extra_empty_chunk :
  let w := default_writer accepting CompressionGzip in
  let payload := zeroes 2816 in
  len payload = 2 * chunkDataSize w
  /\ chunkSize w < len payload
  /\ ceil_div (len payload) (chunkDataSize w) = 2
  /\ chunkCount w payload = Returned 3
  /\ sendStage example_env w payload world0 =
       (Returned (2816, None),
        handed [ chunk_datagram w example_id 3 payload 0;
                 chunk_datagram w example_id 3 payload 1;
                 chunkedMagicBytes ++ example_id ++ [x02; x03] ]
          (drawn world0)).
Proof. vm_compute. repeat split; reflexivity. Qed.

(** C2. The claim: a compressed payload of exactly 128 capacities is sent in
    128 chunks, and one more byte is rejected. For the writer of [New] a
    payload of 128 * 1408 = 180224 bytes already counts 129 chunks: it is
    rejected like the payload of 180225 bytes, with nothing handed to the
    socket and no message ID drawn. *)
Theorem payload_of_128_capacities_rejected (env : Env) (c : Conn) (s : World) :
  let w := default_writer c CompressionGzip in
  len (zeroes (Z.to_nat 180224)) = 128 * chunkDataSize w
  /\ sendStage env w (zeroes (Z.to_nat 180224)) s =
       (Returned (0, Some (ErrNeedChunks 129 MaxChunkCount)), s)
  /\ sendStage env w (zeroes (Z.to_nat 180225)) s =
       (Returned (0, Some (ErrNeedChunks 129 MaxChunkCount)), s).
Proof.
  intros w.
  assert (H1 : chunkCount w (zeroes (Z.to_nat 180224)) = Returned 129)
    by (vm_compute; reflexivity).
  assert (H2 : chunkCount w (zeroes (Z.to_nat 180225)) = Returned 129)
    by (vm_compute; reflexivity).
  split; [vm_compute; reflexivity|].
  unfold sendStage. rewrite H1, H2. split; reflexivity.
Qed.

(** With [CompressionNone] the socket is handed one empty datagram, whatever
    the record. *)
Lemma Write_CompressionNone (env : Env) (w : writer) (c : Conn)
    (buf : list byte) (s : World) :
  conn w = Some c -> compressionType w = CompressionNone -> 0 <= chunkSize w ->
  Write env w buf s =
    (Returned (unchunked_result [] (c (length (sent s)) [])), handed [[]] s).
Proof.
  intros Hc Hnone Hsize.
  rewrite (Write_after_compression env w buf []) by (apply compressStage_none; exact Hnone).
  apply sendStage_unchunked; [exact Hc | exact Hsize].
Qed.

(** C3. The claim: with [CompressionNone] and the 1420-byte limit, writing
    "hello world" sends one datagram equal to the 11 input bytes and returns
    (11, nil). The code hands the socket one empty datagram and returns
    (0, nil): [cw] writes into its own copy of [cBuf], and [cBuf.Bytes()] is
    empty. *)
Theorem hello_world_uncompressed_sends_nothing :
  Write example_env (default_writer accepting CompressionNone)
    (list_byte_of_string "hello world") world0
  = (Returned (0, None), handed [[]] world0).
Proof.
  rewrite (Write_CompressionNone example_env _ accepting); reflexivity || discriminate.
Qed.

(** C10. For a compression type other than [CompressionNone],
    [CompressionGzip] and [CompressionZlib], no case of the switch assigns
    [cw]; [err] is nil, so [Write] goes on to call [cw.Write] through the nil
    interface and panics. It returns no error value and hands nothing to the
    socket. *)
Theorem unknown_compression_type_panics (env : Env) (w : writer)
    (buf : list byte) (s : World) :
  compressionType w <> CompressionNone ->
  compressionType w <> CompressionGzip ->
  compressionType w <> CompressionZlib ->
  Write env w buf s = (Panicked NilDereference, s).
Proof.
  intros Hnone Hgzip Hzlib. unfold Write, compressStage.
  apply Z.eqb_neq in Hnone, Hgzip, Hzlib.
  rewrite Hnone, Hgzip, Hzlib. reflexivity.
Qed.

Lemma unknown_compression_type_panics_witness :
  Write example_env (default_writer accepting 3)
    (list_byte_of_string "hello world") world0
  = (Panicked NilDereference, world0).
Proof.
  apply unknown_compression_type_panics; vm_compute; discriminate.
Defined.

(** C7. When the chunk count computed for the compressed payload exceeds
    128, [Write] returns 0 and an error whose message carries the count and
    the maximum; the world is unchanged: no datagram was handed to the socket
    and the entropy source was not read. *)
Theorem too_many_chunks_is_preflight (env : Env) (w : writer)
    (buf cBytes : list byte) (count : Z) (s : World) :
  compressStage env w buf = Returned (inr cBytes) ->
  chunkCount w cBytes = Returned count ->
  MaxChunkCount < count ->
  Write env w buf s = (Returned (0, Some (ErrNeedChunks count MaxChunkCount)), s)
  /\ Error (ErrNeedChunks count MaxChunkCount) =
       ("need " ++ fmt_d count ++ " chunks but shold be later or equal to 128")%string.
Proof.
  intros Hcompress Hcount Hmax. split; [|reflexivity].
  rewrite (Write_after_compression _ _ _ _ Hcompress).
  rewrite (sendStage_chunked _ _ _ _ Hcount) by (unfold MaxChunkCount in Hmax; lia).
  unfold writeChunked.
  replace (count >? MaxChunkCount) with true by (symmetry; apply Z.gtb_lt; exact Hmax).
  reflexivity.
Qed.

Lemma too_many_chunks_is_preflight_witness :
  Write example_env (default_writer accepting CompressionGzip)
    (zeroes (Z.to_nat 200000)) world0
  = (Returned (0, Some (ErrNeedChunks 143 MaxChunkCount)), world0)
  /\ Error (ErrNeedChunks 143 MaxChunkCount) =
       "need 143 chunks but shold be later or equal to 128"%string.
Proof.
  apply (too_many_chunks_is_preflight example_env
           (default_writer accepting CompressionGzip)
           (zeroes (Z.to_nat 200000)) (zeroes (Z.to_nat 200000)) 143 world0).
  - apply (compressStage_gzip example_env
             (default_writer accepting CompressionGzip));
      [reflexivity | split; discriminate].
  - vm_compute. reflexivity.
  - reflexivity.
Defined.

(** C9. With a non-empty Graylog address and a failing dial, [New] prints
    the fallback line and returns what zap's [Build] returns around its own
    production core: the logger and a nil error when zap can build it, and
    otherwise zap's build error. The dial error stays in the local variable
    of [New] and is never returned. *)
Theorem dial_failure_falls_back (env : Env) (configuration : LoggingConfiguration)
    (e : error) (s : World) :
  GraylogAddress configuration <> ""%string ->
  net_DialTimeout env "udp" (GraylogAddress configuration) 15 = inr e ->
  New env configuration s =
    match zap_Build_error env with
    | None =>
        (Returned
           (Some (mkLogger ProductionCore
                    [ zap_Int "pid" (os_Getpid env);
                      zap_String "app_name" (AppName configuration);
                      zap_String "host" (Hostname configuration);
                      zap_String "exe" (os_exe env);
                      zap_String "version" "1.1" ]),
            None),
         mkWorld (sent s) (entropy_reads s)
           (stdout s ++ ["could not connect with graylog, falling back to stdout"%string]))
    | Some build_error => (Returned (None, Some build_error), s)
    end.
Proof.
  intros Haddr Hdial. unfold New, zap_Build.
  destruct (zap_Build_error env) as [build_error|]; [reflexivity|].
  unfold bind, corewrap.
  apply String.eqb_neq in Haddr. rewrite Haddr, Hdial. reflexivity.
Qed.

Lemma dial_failure_falls_back_witness :
  New example_env
    {| GraylogAddress := "localhost:5141"; AppName := "test"; Hostname := "localhost" |}
    world0
  = (Returned
       (Some (mkLogger ProductionCore
                [ zap_Int "pid" 4242; zap_String "app_name" "test";
                  zap_String "host" "localhost"; zap_String "exe" "logger.test";
                  zap_String "version" "1.1" ]),
        None),
     mkWorld [] 0 ["could not connect with graylog, falling back to stdout"%string]).
Proof.
  apply (dial_failure_falls_back example_env
           {| GraylogAddress := "localhost:5141"; AppName := "test";
              Hostname := "localhost" |}
           (ExtError "dial udp: i/o timeout") world0).
  - discriminate.
  - reflexivity.
Defined.

(** C5. For every record whose compressed payload [cBytes] is no longer than
    the limit, [Write] hands the socket one datagram, [cBytes] itself with no
    header, and the result follows the reply of the socket
    ([unchunked_result]: [(n, nil)] when the socket took all [n] bytes). And
    for every record whose compressed payload is one byte longer than the
    limit, the count is above one and [Write] returns what [writeChunked]
    returns, for a capacity between 1 and the limit plus one, as the limit
    minus the 12 header bytes is. Each half stands on its own hypotheses. *)
Theorem unchunked_up_to_the_limit :
  (forall (env : Env) (w : writer) (c : Conn) (buf cBytes : list byte) (s : World),
      conn w = Some c ->
      compressStage env w buf = Returned (inr cBytes) ->
      len cBytes <= chunkSize w ->
      Write env w buf s =
        (Returned (unchunked_result cBytes (c (length (sent s)) cBytes)),
         handed [cBytes] s))
  /\ (forall (env : Env) (w : writer) (buf cBytes : list byte) (s : World),
        compressStage env w buf = Returned (inr cBytes) ->
        len cBytes = chunkSize w + 1 ->
        len cBytes < max_int ->
        0 < chunkDataSize w <= chunkSize w + 1 ->
        exists count : Z,
          1 < count
          /\ chunkCount w cBytes = Returned count
          /\ Write env w buf s = writeChunked env w count cBytes s).
Proof.
  split.
  - intros env w c buf cBytes s Hc Hcompress Hle.
    rewrite (Write_after_compression _ _ _ _ Hcompress).
    apply sendStage_unchunked; assumption.
  - intros env w buf cBytes s Hcompress Hlen Hint HD.
    rewrite (Write_after_compression _ _ _ _ Hcompress).
    exists (len cBytes / chunkDataSize w + 1).
    assert (Hcount : chunkCount w cBytes
                     = Returned (len cBytes / chunkDataSize w + 1))
      by (apply chunkCount_chunked; lia).
    assert (Hq : 1 <= len cBytes / chunkDataSize w)
      by (apply Z.div_le_lower_bound; lia).
    split; [lia|]. split; [exact Hcount|].
    rewrite (sendStage_chunked _ _ _ _ Hcount) by lia. reflexivity.
Qed.

(** The two halves at the threshold of the writer of [New], 1420 and 1421
    bytes, and the first half for a [CompressionNone] writer. *)
Lemma unchunked_up_to_the_limit_witness :
  Write example_env (default_writer accepting CompressionGzip) (zeroes 1420) world0 =
    (Returned (unchunked_result (zeroes 1420) (accepting 0%nat (zeroes 1420))),
     handed [zeroes 1420] world0)
  /\ Write example_env (default_writer accepting CompressionNone)
       (list_byte_of_string "hello world") world0 =
       (Returned (unchunked_result [] (accepting 0%nat [])), handed [[]] world0)
  /\ exists count : Z,
       1 < count
       /\ chunkCount (default_writer accepting CompressionGzip) (zeroes 1421)
          = Returned count
       /\ Write example_env (default_writer accepting CompressionGzip)
            (zeroes 1421) world0
          = writeChunked example_env (default_writer accepting CompressionGzip)
              count (zeroes 1421) world0.
Proof.
  split; [|split].
  - apply (proj1 unchunked_up_to_the_limit example_env
             (default_writer accepting CompressionGzip) accepting
             (zeroes 1420) (zeroes 1420) world0).
    + reflexivity.
    + reflexivity.
    + vm_compute. discriminate.
  - apply (proj1 unchunked_up_to_the_limit example_env
             (default_writer accepting CompressionNone) accepting
             (list_byte_of_string "hello world") [] world0).
    + reflexivity.
    + reflexivity.
    + vm_compute. discriminate.
  - apply (proj2 unchunked_up_to_the_limit example_env
             (default_writer accepting CompressionGzip)
             (zeroes 1421) (zeroes 1421) world0).
    + reflexivity.
    + reflexivity.
    + reflexivity.
    + vm_compute. split; [reflexivity | discriminate].
Defined.

(** The datagram at place [i] of a run of consecutive positions. *)
Lemma nth_error_positions (f : nat -> list byte) (m i : nat) (d : list byte) :
  nth_error (map f (seq 0 m)) i = Some d -> (i < m)%nat /\ d = f i.
Proof.
  rewrite nth_error_map, nth_error_seq.
  destruct (Nat.ltb_spec i m) as [Hlt | Hge]; [|discriminate].
  cbn. intros H. injection H as <-. split; [exact Hlt | reflexivity].
Qed.


(** The run of [Write] on the chunked path: with a socket, a count within
    128 and eight bytes [got] of entropy, [Write] reads the entropy source
    once and hands over the chunk datagrams of positions [0 .. m-1] under
    the message ID [got], at least one, and stops before the last position
    only at a datagram that the socket did not take whole. *)
Lemma chunked_run (env : Env) (w : writer) (c : Conn)
    (buf cBytes got : list byte) (count : Z) (s : World) :
  conn w = Some c ->
  compressStage env w buf = Returned (inr cBytes) ->
  len cBytes < max_int ->
  chunkCount w cBytes = Returned count ->
  1 < count <= MaxChunkCount ->
  0 <= chunkSize w ->
  rand_ReadFull env (entropy_reads s) = (got, None) ->
  length got = 8%nat ->
  0 < chunkDataSize w
  /\ count = len cBytes / chunkDataSize w + 1
  /\ exists m : nat,
       snd (Write env w buf s) =
         handed (map (chunk_datagram w got count cBytes) (seq 0 m)) (drawn s)
       /\ 1 <= Z.of_nat m <= count
       /\ (Z.of_nat m = count
           \/ exists m0 : nat,
                m = S m0
                /\ c (length (sent s) + m0)%nat
                     (chunk_datagram w got count cBytes m0)
                   <> (len (chunk_datagram w got count cBytes m0), None)).
Proof.
  intros Hc Hcompress Hint Hcount [Hone Hmax] Hsize Hrand Hgot.
  destruct (chunkCount_above_one w cBytes count Hint Hcount Hone)
    as (HD & _ & Hvalue).
  split; [exact HD|]. split; [exact Hvalue|].
  rewrite (Write_after_compression _ _ _ _ Hcompress).
  rewrite (sendStage_chunked _ _ _ _ Hcount Hone).
  subst count.
  apply (writeChunked_stops_at_refusal env w c cBytes got s); assumption.
Qed.



(** C8. On the chunked path (a socket, a count within 128, eight bytes [got]
    read from the entropy source), [Write] hands the socket at least one
    datagram and goes on to the next position after every datagram that the
    socket takes whole, up to [count] of them. The datagram at place [i] is:
    the magic bytes 0x1e 0x0f, the eight bytes [got] as message ID, one byte
    of value [i], one byte of value [count], and the payload of position [i]
    (the [chunkDataSize] bytes of the compressed payload from offset
    [i * chunkDataSize], fewer at its end). *)
Theorem chunk_datagram_layout (env : Env) (w : writer) (c : Conn)
    (buf cBytes got : list byte) (count : Z) (s : World) :
  conn w = Some c ->
  compressStage env w buf = Returned (inr cBytes) ->
  len cBytes < max_int ->
  chunkCount w cBytes = Returned count ->
  1 < count <= MaxChunkCount ->
  0 <= chunkSize w ->
  rand_ReadFull env (entropy_reads s) = (got, None) ->
  length got = 8%nat ->
  exists chunks : list (list byte),
    snd (Write env w buf s) = handed chunks (drawn s)
    /\ 1 <= Z.of_nat (length chunks) <= count
    /\ (Z.of_nat (length chunks) = count
        \/ exists (k : nat) (d : list byte),
             length chunks = S k
             /\ nth_error chunks k = Some d
             /\ c (length (sent s) + k)%nat d <> (len d, None))
    /\ forall (i : nat) (d : list byte),
         nth_error chunks i = Some d ->
         exists index total : byte,
           d = [x1e; x0f] ++ got ++ [index] ++ [total]
                 ++ firstn (Z.to_nat (chunkDataSize w))
                      (skipn (i * Z.to_nat (chunkDataSize w)) cBytes)
           /\ Z.of_N (Byte.to_N index) = Z.of_nat i
           /\ Z.of_N (Byte.to_N total) = count.
Proof.
  intros Hc Hcompress Hint Hcount Hbounds Hsize Hrand Hgot.
  destruct (chunked_run env w c buf cBytes got count s
              Hc Hcompress Hint Hcount Hbounds Hsize Hrand Hgot)
    as (HD & Hvalue & m & Hworld & Hm & Hwhy).
  exists (map (chunk_datagram w got count cBytes) (seq 0 m)).
  rewrite length_map, length_seq.
  split; [exact Hworld|]. split; [exact Hm|]. split.
  - destruct Hwhy as [Hall | (m0 & -> & Hrefused)]; [left; exact Hall|].
    right. exists m0, (chunk_datagram w got count cBytes m0).
    split; [reflexivity|]. split; [|exact Hrefused].
    rewrite nth_error_map, nth_error_seq.
    replace (m0 <? S m0)%nat with true by (symmetry; apply Nat.ltb_lt; lia).
    reflexivity.
  - intros i d Hd. apply nth_error_positions in Hd. destruct Hd as [Hi ->].
    destruct Hbounds as [Hone Hmax]. unfold MaxChunkCount in Hmax.
    exists (byte_of_uint8 (Z.of_nat i)), (byte_of_uint8 count).
    split; [reflexivity|].
    split; apply byte_of_uint8_value; lia.
Qed.

Lemma chunk_datagram_layout_witness :
  exists chunks : list (list byte),
    snd (Write example_env (default_writer accepting CompressionGzip)
           (zeroes 3000) world0)
      = handed chunks (drawn world0)
    /\ 1 <= Z.of_nat (length chunks) <= 3
    /\ (Z.of_nat (length chunks) = 3
        \/ exists (k : nat) (d : list byte),
             length chunks = S k
             /\ nth_error chunks k = Some d
             /\ accepting (length (sent world0) + k)%nat d <> (len d, None))
    /\ forall (i : nat) (d : list byte),
         nth_error chunks i = Some d ->
         exists index total : byte,
           d = [x1e; x0f] ++ example_id ++ [index] ++ [total]
                 ++ firstn (Z.to_nat 1408) (skipn (i * Z.to_nat 1408) (zeroes 3000))
           /\ Z.of_N (Byte.to_N index) = Z.of_nat i
           /\ Z.of_N (Byte.to_N total) = 3.
Proof.
  apply (chunk_datagram_layout example_env
           (default_writer accepting CompressionGzip) accepting
           (zeroes 3000) (zeroes 3000) example_id 3 world0).
  - reflexivity.
  - reflexivity.
  - vm_compute. reflexivity.
  - vm_compute. reflexivity.
  - vm_compute. split; [reflexivity | discriminate].
  - vm_compute. discriminate.
  - reflexivity.
  - reflexivity.
Defined.




(** ** Further properties of the writer *)

Lemma chunk_payload_length (w : writer) (cBytes : list byte) (i : nat) :
  0 < chunkDataSize w ->
  len (chunk_payload w cBytes i) =
    Z.max 0 (Z.min (chunkDataSize w) (len cBytes - Z.of_nat i * chunkDataSize w)).
Proof.
  intros HD. unfold chunk_payload, len.
  rewrite length_firstn, length_skipn. nia.
Qed.

Lemma chunk_datagram_length (w : writer) (messageID : list byte) (nChunks : Z)
    (cBytes : list byte) (i : nat) :
  length messageID = 8%nat ->
  len (chunk_datagram w messageID nChunks cBytes i) =
    12 + len (chunk_payload w cBytes i).
Proof.
  intros Hid. unfold chunk_datagram, chunkedMagicBytes, len.
  rewrite !length_app, Hid. cbn [length]. lia.
Qed.

(** Whatever its arguments, the loop only adds datagrams to the world, at
    most one for each iteration. *)
Lemma chunkLoop_frame (w : writer) (messageID : list byte) (nChunks : Z)
    (cBytes : list byte) (todo : nat) :
  forall (i bytesLeft : Z) (s s' : World) r,
    chunkLoop w messageID nChunks cBytes todo i bytesLeft s = (r, s') ->
    exists ds : list (list byte),
      s' = handed ds s /\ (length ds <= todo)%nat.
Proof.
  induction todo as [|todo IH]; intros i bytesLeft s s' r Hrun.
  - cbn in Hrun. injection Hrun as _ <-. exists []. rewrite handed_nil.
    split; [reflexivity | cbn; lia].
  - cbn [chunkLoop] in Hrun. cbv zeta in Hrun.
    destruct (slice cBytes _ _) as [part|].
    2:{ injection Hrun as _ <-. exists []. rewrite handed_nil.
        split; [reflexivity | cbn; lia]. }
    unfold bind, conn_Write in Hrun.
    destruct (conn w) as [c|].
    2:{ injection Hrun as _ <-. exists []. rewrite handed_nil.
        split; [reflexivity | cbn; lia]. }
    set (d := chunkedMagicBytes ++ messageID ++ [byte_of_uint8 i]
                ++ [byte_of_uint8 nChunks] ++ part) in *.
    change (mkWorld (sent s ++ [d]) (entropy_reads s) (stdout s))
      with (handed [d] s) in Hrun.
    destruct (c (length (sent s)) d) as [n [e|]].
    { injection Hrun as _ <-. exists [d]. split; [reflexivity | cbn; lia]. }
    destruct (negb (n =? len d)).
    { injection Hrun as _ <-. exists [d]. split; [reflexivity | cbn; lia]. }
    apply IH in Hrun. destruct Hrun as (ds & -> & Hlen).
    exists (d :: ds). rewrite handed_handed.
    split; [reflexivity | cbn; lia].
Qed.

(** [writeChunked] reads the entropy source at most once and only adds
    datagrams, no more than the count. *)
Lemma writeChunked_frame (env : Env) (w : writer) (count : Z)
    (cBytes : list byte) (s s' : World) r :
  0 <= count ->
  writeChunked env w count cBytes s = (r, s') ->
  exists (ds : list (list byte)) (read : bool),
    s' = handed ds (if read then drawn s else s)
    /\ Z.of_nat (length ds) <= count
    /\ (ds <> [] -> count <= MaxChunkCount).
Proof.
  intros Hcount Hrun.
  assert (Hquiet : forall read : bool,
             s' = (if read then drawn s else s) ->
             exists (ds : list (list byte)) (read : bool),
               s' = handed ds (if read then drawn s else s)
               /\ Z.of_nat (length ds) <= count
               /\ (ds <> [] -> count <= MaxChunkCount)).
  { intros read ->. exists [], read. rewrite handed_nil.
    split; [reflexivity|]. split; [cbn; lia | congruence]. }
  unfold writeChunked in Hrun.
  destruct (count >? MaxChunkCount) eqn:Hmax.
  { injection Hrun as _ <-. apply (Hquiet false). reflexivity. }
  rewrite Z.gtb_ltb in Hmax. apply Z.ltb_ge in Hmax.
  destruct (chunkSize w <? 0).
  { injection Hrun as _ <-. apply (Hquiet false). reflexivity. }
  unfold bind at 1, io_ReadFull_rand in Hrun.
  destruct (rand_ReadFull env (entropy_reads s)) as [got err].
  change (mkWorld (sent s) (S (entropy_reads s)) (stdout s)) with (drawn s) in Hrun.
  destruct err as [e|].
  { injection Hrun as _ <-. apply (Hquiet true). reflexivity. }
  destruct (len (firstn 8 got) =? 8).
  2:{ injection Hrun as _ <-. apply (Hquiet true). reflexivity. }
  unfold bind in Hrun.
  destruct (chunkLoop _ _ _ _ _ _ _ _) as [r0 s0] eqn:Hloop.
  apply chunkLoop_frame in Hloop. destruct Hloop as (ds & -> & Hlen).
  unfold MaxChunkCount in Hmax. rewrite uint8_id in Hlen by lia.
  exists ds, true.
  assert (Hs : s' = handed ds (drawn s)).
  { destruct r0 as [[early | bytesLeft] | p].
    - injection Hrun as _ <-. reflexivity.
    - destruct (negb (bytesLeft =? 0)); injection Hrun as _ <-; reflexivity.
    - injection Hrun as _ <-. reflexivity. }
  split; [exact Hs|]. split; [lia|]. intros _. unfold MaxChunkCount. lia.
Qed.

(** With a socket, the loop of a count that [chunkCount] computed returns. *)
Lemma chunkLoop_returns (w : writer) (messageID : list byte) (nChunks : Z)
    (cBytes : list byte) (c : Conn) (todo : nat) :
  0 < chunkDataSize w -> len cBytes <= max_int -> conn w = Some c ->
  forall (i : nat) (s : World),
    (Z.of_nat (i + todo) - 1) * chunkDataSize w <= len cBytes ->
    Z.of_nat (i + todo) <= 255 ->
    exists x s',
      chunkLoop w messageID nChunks cBytes todo (Z.of_nat i)
        (bytesLeft_at w cBytes i) s = (Returned x, s').
Proof.
  intros HD Hint Hc.
  induction todo as [|todo IH]; intros i s Hreach H255.
  - cbn. unfold ret. eauto.
  - assert (Hi : Z.of_nat i * chunkDataSize w <= len cBytes) by nia.
    rewrite (chunkLoop_step w messageID nChunks cBytes HD Hint todo i c s Hc Hi)
      by lia.
    cbv zeta.
    destruct (c _ _) as [n [e|]]; [eauto|].
    destruct (n =? _); [|eauto].
    apply IH.
    + replace (S i + todo)%nat with (i + S todo)%nat by lia. exact Hreach.
    + lia.
Qed.

Lemma writeChunked_returns (env : Env) (w : writer) (c : Conn)
    (cBytes : list byte) (s : World) :
  conn w = Some c -> 0 < chunkDataSize w -> len cBytes < max_int ->
  0 <= chunkSize w ->
  exists x s',
    writeChunked env w (len cBytes / chunkDataSize w + 1) cBytes s
      = (Returned x, s').
Proof.
  intros Hc HD Hint Hsize.
  pose proof (len_nonneg cBytes) as H0.
  assert (Hq : 0 <= len cBytes / chunkDataSize w) by (apply Z.div_pos; lia).
  unfold writeChunked.
  destruct (_ >? MaxChunkCount) eqn:Hmax; [unfold ret; eauto|].
  rewrite Z.gtb_ltb in Hmax. apply Z.ltb_ge in Hmax. unfold MaxChunkCount in Hmax.
  replace (chunkSize w <? 0) with false by (symmetry; apply Z.ltb_ge; exact Hsize).
  unfold bind at 1, io_ReadFull_rand.
  destruct (rand_ReadFull env (entropy_reads s)) as [got err].
  destruct err as [e|]; [unfold ret; eauto|].
  destruct (len (firstn 8 got) =? 8); [|unfold ret; eauto].
  rewrite uint8_id by lia.
  set (count := len cBytes / chunkDataSize w + 1) in *.
  destruct (chunkLoop_returns w (firstn 8 (got ++ repeat x00 8)) count cBytes c
              (Z.to_nat count) HD ltac:(lia) Hc 0%nat
              (mkWorld (sent s) (S (entropy_reads s)) (stdout s)))
    as (x & s' & Hloop).
  - cbn [Nat.add]. rewrite Z2Nat.id by lia. unfold count.
    pose proof (last_chunk_reached w cBytes HD). nia.
  - cbn [Nat.add]. lia.
  - replace (bytesLeft_at w cBytes 0) with (len cBytes) in Hloop
      by (unfold bytesLeft_at; lia).
    cbn [Z.of_nat] in Hloop. unfold bind. rewrite Hloop.
    destruct x as [early | bytesLeft]; [unfold ret; eauto|].
    destruct (negb (bytesLeft =? 0)); unfold ret; eauto.
Qed.



(** X2. With a capacity between 1 and the limit
    ([0 < chunkDataSize <= chunkSize]): a compressed payload longer than the
    limit and shorter than 128 capacities, on a socket that accepts every
    datagram whole and with eight
    bytes of entropy: [Write] reads the entropy source once, hands over the
    [len / chunkDataSize + 1] chunk datagrams in order under that message ID,
    and returns the length of the compressed payload and a nil error. *)
Theorem accepted_chunks_succeed (env : Env) (w : writer) (c : Conn)
    (buf cBytes got : list byte) (s : World) :
  let count := len cBytes / chunkDataSize w + 1 in
  conn w = Some c ->
  compressStage env w buf = Returned (inr cBytes) ->
  0 < chunkDataSize w <= chunkSize w ->
  chunkSize w < len cBytes ->
  len cBytes < MaxChunkCount * chunkDataSize w ->
  len cBytes < max_int ->
  rand_ReadFull env (entropy_reads s) = (got, None) ->
  length got = 8%nat ->
  (forall (k : nat) (p : list byte), c k p = (len p, None)) ->
  Write env w buf s =
    (Returned (len cBytes, None),
     handed (map (chunk_datagram w got count cBytes) (seq 0 (Z.to_nat count)))
       (drawn s)).
Proof.
  intros count Hc Hcompress [HD Hcap] Hgt Hmax Hint Hrand Hgot Hacc.
  assert (Hcount : chunkCount w cBytes = Returned count)
    by (apply chunkCount_chunked; lia).
  assert (Hq : 1 <= len cBytes / chunkDataSize w)
    by (apply Z.div_le_lower_bound; lia).
  rewrite (Write_after_compression _ _ _ _ Hcompress).
  rewrite (sendStage_chunked _ _ _ _ Hcount) by (unfold count; lia).
  apply (writeChunked_accepted env w c cBytes got s); try assumption; try lia.
  - apply (count_within_maximum w cBytes count HD ltac:(lia) Hcount). exact Hmax.
  - intros j _. apply Hacc.
Qed.

Lemma accepted_chunks_succeed_witness :
  let w := default_writer accepting CompressionGzip in
  Write example_env w (zeroes 3000) world0 =
    (Returned (len (zeroes 3000), None),
     handed (map (chunk_datagram w example_id
                    (len (zeroes 3000) / chunkDataSize w + 1) (zeroes 3000))
               (seq 0 (Z.to_nat (len (zeroes 3000) / chunkDataSize w + 1))))
       (drawn world0)).
Proof.
  intros w.
  apply (accepted_chunks_succeed example_env w accepting (zeroes 3000)
           (zeroes 3000) example_id world0).
  - reflexivity.
  - reflexivity.
  - vm_compute. split; [reflexivity | discriminate].
  - vm_compute. reflexivity.
  - vm_compute. reflexivity.
  - vm_compute. reflexivity.
  - reflexivity.
  - reflexivity.
  - intros k p. reflexivity.
Defined.

(** X3. Whenever [Write] returns a nil error, the byte count it returns is
    the length of the compressed payload, on the unchunked and on the
    chunked path alike: the count is in compressed bytes, not in bytes of
    the record. *)
Theorem success_counts_compressed_bytes (env : Env) (w : writer)
    (buf cBytes : list byte) (n : Z) (s s' : World) :
  compressStage env w buf = Returned (inr cBytes) ->
  len cBytes < max_int ->
  Write env w buf s = (Returned (n, None), s') ->
  n = len cBytes.
Proof.
  intros Hcompress Hint Hrun.
  rewrite (Write_after_compression _ _ _ _ Hcompress) in Hrun.
  destruct (chunkCount w cBytes) as [count | p] eqn:Hcount.
  2:{ unfold sendStage in Hrun. rewrite Hcount in Hrun. discriminate. }
  destruct (Z.lt_ge_cases 1 count) as [Hone | Hone].
  - destruct (chunkCount_above_one w cBytes count Hint Hcount Hone)
      as (HD & _ & Hvalue).
    rewrite (sendStage_chunked _ _ _ _ Hcount Hone), Hvalue in Hrun.
    destruct (writeChunked_trace env w cBytes s s' _ HD Hint Hrun)
      as (messageID & m & _ & _ & _ & _ & Hsuccess & _).
    apply (Hsuccess n eq_refl).
  - unfold sendStage in Hrun. rewrite Hcount in Hrun.
    replace (count >? 1) with false in Hrun
      by (symmetry; rewrite Z.gtb_ltb; apply Z.ltb_ge; exact Hone).
    unfold bind, conn_Write in Hrun.
    destruct (conn w) as [c|]; [|discriminate].
    destruct (c _ _) as [n0 [e|]]; [discriminate|].
    destruct (n0 =? len cBytes) eqn:Hn; cbn [negb] in Hrun; [|discriminate].
    injection Hrun as <- _. apply Z.eqb_eq. exact Hn.
Qed.

Lemma success_counts_compressed_bytes_witness :
  3000 = len (zeroes 3000).
Proof.
  apply (success_counts_compressed_bytes example_env
           (default_writer accepting CompressionGzip) (zeroes 3000) (zeroes 3000)
           3000 world0
           (snd (Write example_env (default_writer accepting CompressionGzip)
                   (zeroes 3000) world0))).
  - reflexivity.
  - vm_compute. reflexivity.
  - vm_compute. reflexivity.
Defined.

(** X4. On the chunked path, when the read of the entropy source reports an
    error or delivers fewer than eight bytes, [Write] returns 0 and an error
    naming the number of bytes read; the read is spent and nothing is handed
    to the socket. *)
Theorem entropy_failure_sends_nothing (env : Env) (w : writer)
    (buf cBytes got : list byte) (count : Z) (err : option error) (s : World) :
  compressStage env w buf = Returned (inr cBytes) ->
  chunkCount w cBytes = Returned count ->
  1 < count <= MaxChunkCount ->
  0 <= chunkSize w ->
  rand_ReadFull env (entropy_reads s) = (got, err) ->
  err <> None \/ (length got < 8)%nat ->
  Write env w buf s =
    (Returned (0, Some (ErrRandReader (Z.of_nat (Nat.min 8 (length got)))
                          (fmt_s err))),
     drawn s).
Proof.
  intros Hcompress Hcount [Hone Hmax] Hsize Hrand Hbad.
  rewrite (Write_after_compression _ _ _ _ Hcompress).
  rewrite (sendStage_chunked _ _ _ _ Hcount Hone).
  unfold writeChunked.
  replace (count >? MaxChunkCount) with false
    by (symmetry; rewrite Z.gtb_ltb; apply Z.ltb_ge; exact Hmax).
  replace (chunkSize w <? 0) with false by (symmetry; apply Z.ltb_ge; exact Hsize).
  unfold bind, io_ReadFull_rand. rewrite Hrand.
  unfold len. rewrite length_firstn.
  destruct err as [e|]; [reflexivity|].
  destruct Hbad as [Hbad | Hbad]; [congruence|].
  replace (Z.of_nat (Nat.min 8 (length got)) =? 8) with false
    by (symmetry; apply Z.eqb_neq; lia).
  reflexivity.
Qed.

Lemma entropy_failure_sends_nothing_witness :
  Write starved_env (default_writer accepting CompressionGzip) (zeroes 3000) world0
  = (Returned (0, Some (ErrRandReader 3 "unexpected EOF")), drawn world0).
Proof.
  apply (entropy_failure_sends_nothing starved_env
           (default_writer accepting CompressionGzip) (zeroes 3000) (zeroes 3000)
           [xa1; xb2; xc3] 3 (Some (ExtError "unexpected EOF")) world0).
  - reflexivity.
  - vm_compute. reflexivity.
  - vm_compute. split; [reflexivity | discriminate].
  - vm_compute. discriminate.
  - reflexivity.
  - left. discriminate.
Defined.

(** X5. With gzip or zlib and a compression level outside [-2, 9], [Write]
    returns 0 and the error of the compressor's constructor; the world is
    unchanged: nothing is compressed, drawn or sent. *)
Theorem invalid_level_sends_nothing (env : Env) (w : writer)
    (buf : list byte) (s : World) :
  compressionType w = CompressionGzip \/ compressionType w = CompressionZlib ->
  compressionLevel w < HuffmanOnly \/ BestCompression < compressionLevel w ->
  Write env w buf s =
    (Returned (0, Some (ErrInvalidLevel
                          (if compressionType w =? CompressionGzip
                           then "gzip" else "zlib")
                          (compressionLevel w))),
     s).
Proof.
  intros Htype Hlevel.
  assert (Hbad : (compressionLevel w <? HuffmanOnly)
                 || (compressionLevel w >? BestCompression) = true).
  { apply orb_true_iff. rewrite Z.gtb_ltb.
    destruct Hlevel as [H | H]; [left | right]; apply Z.ltb_lt; exact H. }
  unfold Write, compressStage, gzip_NewWriterLevel, zlib_NewWriterLevel.
  destruct Htype as [-> | ->]; cbn [Z.eqb CompressionGzip CompressionZlib
                                    CompressionNone Pos.eqb];
    rewrite Hbad; reflexivity.
Qed.

Lemma invalid_level_sends_nothing_witness :
  Write example_env
    (mkWriter (Some accepting) DefaultChunkSize (DefaultChunkSize - 12)
       CompressionZlib 10)
    (zeroes 3000) world0
  = (Returned (0, Some (ErrInvalidLevel "zlib" 10)), world0).
Proof.
  apply (invalid_level_sends_nothing example_env
           (mkWriter (Some accepting) DefaultChunkSize (DefaultChunkSize - 12)
              CompressionZlib 10)
           (zeroes 3000) world0).
  - right. reflexivity.
  - right. reflexivity.
Defined.

(** X9. On the chunked path every datagram handed to the socket before the
    last position is full, 12 header bytes and [chunkDataSize] payload
    bytes, and the datagram of the last position carries the remainder
    [len mod chunkDataSize], which is zero on the multiples of the
    capacity. *)
Theorem chunks_before_last_are_full (env : Env) (w : writer)
    (buf cBytes : list byte) (count : Z) (s s' : World)
    (r : outcome (Z * option error)) :
  compressStage env w buf = Returned (inr cBytes) ->
  len cBytes < max_int ->
  chunkCount w cBytes = Returned count ->
  1 < count ->
  Write env w buf s = (r, s') ->
  exists chunks : list (list byte),
    sent s' = sent s ++ chunks
    /\ forall (i : nat) (d : list byte),
         nth_error chunks i = Some d ->
         (Z.of_nat i < count - 1 -> len d = 12 + chunkDataSize w)
         /\ (Z.of_nat i = count - 1 ->
             len d = 12 + len cBytes mod chunkDataSize w).
Proof.
  intros Hcompress Hint Hcount Hone Hrun.
  destruct (chunkCount_above_one w cBytes count Hint Hcount Hone)
    as (HD & Hgt & Hvalue).
  rewrite (Write_after_compression _ _ _ _ Hcompress) in Hrun.
  rewrite (sendStage_chunked _ _ _ _ Hcount Hone), Hvalue in Hrun.
  destruct (writeChunked_trace env w cBytes s s' r HD Hint Hrun)
    as (messageID & m & Hid & Hm & _ & Hsent & _ & _).
  eexists. split; [exact Hsent|].
  intros i d Hd. apply nth_error_positions in Hd. destruct Hd as [Hi ->].
  rewrite chunk_datagram_length by exact Hid.
  rewrite chunk_payload_length by exact HD.
  pose proof (Z.mod_pos_bound (len cBytes) (chunkDataSize w) HD) as Hr.
  pose proof (Z.div_mod (len cBytes) (chunkDataSize w) ltac:(lia)) as Hdm.
  split; intros Hpos; nia.
Qed.

Lemma chunks_before_last_are_full_witness :
  let w := default_writer accepting CompressionGzip in
  let run := Write example_env w (zeroes 3000) world0 in
  exists chunks : list (list byte),
    sent (snd run) = sent world0 ++ chunks
    /\ forall (i : nat) (d : list byte),
         nth_error chunks i = Some d ->
         (Z.of_nat i < 3 - 1 -> len d = 12 + chunkDataSize w)
         /\ (Z.of_nat i = 3 - 1 ->
             len d = 12 + len (zeroes 3000) mod chunkDataSize w).
Proof.
  intros w run.
  apply (chunks_before_last_are_full example_env w (zeroes 3000) (zeroes 3000)
           3 world0 (snd run) (fst run)).
  - reflexivity.
  - vm_compute. reflexivity.
  - vm_compute. reflexivity.
  - reflexivity.
  - apply surjective_pairing.
Defined.

(** X10. One call of [Write], whatever the writer, the record and the
    environment: the datagrams handed over before stay as they were, at most
    128 are added, the entropy source is read at most once and nothing is
    printed. *)
Theorem Write_frame (env : Env) (w : writer) (buf : list byte) (s : World) :
  exists ds : list (list byte),
    sent (snd (Write env w buf s)) = sent s ++ ds
    /\ (length ds <= 128)%nat
    /\ (entropy_reads s <= entropy_reads (snd (Write env w buf s))
        <= S (entropy_reads s))%nat
    /\ stdout (snd (Write env w buf s)) = stdout s.
Proof.
  assert (Hquiet : forall r : outcome (Z * option error),
             Write env w buf s = (r, s) ->
             exists ds : list (list byte),
               sent (snd (Write env w buf s)) = sent s ++ ds
               /\ (length ds <= 128)%nat
               /\ (entropy_reads s <= entropy_reads (snd (Write env w buf s))
                   <= S (entropy_reads s))%nat
               /\ stdout (snd (Write env w buf s)) = stdout s).
  { intros r ->. exists []. cbn [snd length]. rewrite app_nil_r.
    repeat split; lia. }
  unfold Write in *.
  destruct (compressStage env w buf) as [[early | cBytes] | p];
    [apply (Hquiet _ eq_refl) | | apply (Hquiet _ eq_refl)].
  unfold sendStage in *.
  destruct (chunkCount w cBytes) as [count | p]; [|apply (Hquiet _ eq_refl)].
  destruct (count >? 1) eqn:Hone.
  - apply Z.gtb_lt in Hone.
    destruct (writeChunked env w count cBytes s) as [r s'] eqn:Hrun.
    destruct (writeChunked_frame env w count cBytes s s' r ltac:(lia) Hrun)
      as (ds & read & -> & Hlen & Hmax).
    exists ds. cbn [snd]. unfold handed. cbn [sent entropy_reads stdout].
    split; [destruct read; reflexivity|]. split.
    + destruct ds as [|d ds]; [cbn; lia|].
      specialize (Hmax ltac:(discriminate)). unfold MaxChunkCount in Hmax. lia.
    + destruct read; cbn; split; try split; lia || reflexivity.
  - unfold bind, conn_Write.
    destruct (conn w) as [c|]; [|apply (Hquiet (Panicked NilDereference));
                                  unfold bind, conn_Write; reflexivity].
    exists [cBytes].
    destruct (c _ _) as [n [e|]]; [cbn; repeat split; lia|].
    destruct (negb (n =? len cBytes)); cbn; repeat split; lia.
Qed.



(** ** Further properties of the constructor *)

(** The writer inside a Graylog core that [New] returned. *)
Lemma New_graylog_writer (env : Env) (configuration : LoggingConfiguration)
    (s s' : World) (logger : Logger) (err : option error) (w : writer) :
  New env configuration s = (Returned (Some logger, err), s') ->
  logger_core logger = GraylogCore w ->
  exists c : Conn,
    net_DialTimeout env "udp" (GraylogAddress configuration) 15 = inl c
    /\ w = default_writer c CompressionGzip.
Proof.
  unfold New, zap_Build, bind, corewrap. intros Hnew Hcore.
  destruct (zap_Build_error env); [discriminate|].
  destruct (negb (GraylogAddress configuration =? "")%string).
  - destruct (net_DialTimeout env "udp" (GraylogAddress configuration) 15)
      as [c | e].
    + injection Hnew as <- _ _. cbn in Hcore. injection Hcore as <-.
      exists c. split; reflexivity.
    + injection Hnew as <- _ _. discriminate.
  - injection Hnew as <- _ _. discriminate.
Qed.

(** X6. The writer that [New] installs in the logger never panics: every
    [Write] on it returns a byte count and an error value, whatever the
    record, the socket and the entropy source. *)
Theorem installed_writer_never_panics (env : Env)
    (configuration : LoggingConfiguration) (s s' : World) (logger : Logger)
    (w : writer) (buf : list byte) (s0 : World) :
  New env configuration s = (Returned (Some logger, None), s') ->
  logger_core logger = GraylogCore w ->
  len (gzip_output env BestCompression buf) < max_int ->
  exists (n : Z) (err : option error) (s1 : World),
    Write env w buf s0 = (Returned (n, err), s1).
Proof.
  intros Hnew Hcore Hint.
  destruct (New_graylog_writer _ _ _ _ _ _ _ Hnew Hcore) as (c & _ & ->).
  set (w := default_writer c CompressionGzip).
  set (cBytes := gzip_output env BestCompression buf) in *.
  assert (Hcompress : compressStage env w buf = Returned (inr cBytes)).
  { apply (compressStage_gzip env w buf); [reflexivity | split; discriminate]. }
  rewrite (Write_after_compression _ _ _ _ Hcompress).
  destruct (Z.le_gt_cases (len cBytes) (chunkSize w)) as [Hle | Hgt].
  - rewrite (sendStage_unchunked env w c cBytes s0 eq_refl Hle).
    destruct (unchunked_result _ _) as [n err]. eauto.
  - assert (HD : 0 < chunkDataSize w) by reflexivity.
    assert (Hcount : chunkCount w cBytes
                     = Returned (len cBytes / chunkDataSize w + 1))
      by (apply chunkCount_chunked; [exact HD | lia]).
    assert (Hq : 1 <= len cBytes / chunkDataSize w).
    { apply Z.div_le_lower_bound; [exact HD|].
      change (chunkDataSize w) with 1408. change (chunkSize w) with 1420 in Hgt.
      lia. }
    rewrite (sendStage_chunked _ _ _ _ Hcount) by lia.
    destruct (writeChunked_returns env w c cBytes s0 eq_refl HD Hint
                ltac:(discriminate))
      as ([n err] & s1 & Hrun).
    eauto.
Qed.

Lemma installed_writer_never_panics_witness :
  exists (n : Z) (err : option error) (s1 : World),
    Write dialing_env (default_writer accepting CompressionGzip)
      (zeroes 3000) world0
    = (Returned (n, err), s1).
Proof.
  apply (installed_writer_never_panics dialing_env
           {| GraylogAddress := "localhost:5141"; AppName := "test";
              Hostname := "localhost" |}
           world0 world0
           (mkLogger (GraylogCore (default_writer accepting CompressionGzip))
              [ zap_Int "pid" 4242; zap_String "app_name" "test";
                zap_String "host" "localhost"; zap_String "exe" "logger.test";
                zap_String "version" "1.1" ])).
  - reflexivity.
  - reflexivity.
  - vm_compute. reflexivity.
Defined.

(** X7. [New] never panics, and the error it returns is zap's build error
    and nothing else, for every address and every result of the dial; the
    logger is nil exactly when that error is not. *)
Theorem New_error_is_build_error (env : Env)
    (configuration : LoggingConfiguration) (s : World) :
  exists logger : option Logger,
    fst (New env configuration s) = Returned (logger, zap_Build_error env)
    /\ (logger = None <-> zap_Build_error env <> None).
Proof.
  unfold New, zap_Build, bind, corewrap.
  destruct (zap_Build_error env) as [e|].
  - exists None. split; [reflexivity|]. split; congruence.
  - destruct (negb (GraylogAddress configuration =? "")%string).
    + destruct (net_DialTimeout env "udp" (GraylogAddress configuration) 15);
        eexists; (split; [reflexivity|]); split; congruence.
    + eexists. split; [reflexivity|]. split; congruence.
Qed.

(** X8. What the logger of [New] writes to. A Graylog core is there only
    for a non-empty address whose dial succeeded; it holds the dialed socket,
    the 1420-byte limit, the 1408-byte capacity and gzip at best compression,
    and nothing was printed. The production core is there for an empty
    address, with the world unchanged, or after a failed dial, with the
    fallback line printed. *)
Theorem New_core_cases (env : Env) (configuration : LoggingConfiguration)
    (s s' : World) (logger : Logger) :
  New env configuration s = (Returned (Some logger, None), s') ->
  match logger_core logger with
  | GraylogCore w =>
      GraylogAddress configuration <> ""%string
      /\ s' = s
      /\ exists c : Conn,
           net_DialTimeout env "udp" (GraylogAddress configuration) 15 = inl c
           /\ w = mkWriter (Some c) 1420 1408 CompressionGzip 9
  | ProductionCore =>
      (GraylogAddress configuration = ""%string /\ s' = s)
      \/ (GraylogAddress configuration <> ""%string
          /\ (exists e : error,
                net_DialTimeout env "udp" (GraylogAddress configuration) 15
                = inr e)
          /\ s' = mkWorld (sent s) (entropy_reads s)
                    (stdout s
                       ++ ["could not connect with graylog, falling back to stdout"%string]))
  end.
Proof.
  unfold New, zap_Build, bind, corewrap. intros Hnew.
  destruct (zap_Build_error env); [discriminate|].
  destruct (String.eqb_spec (GraylogAddress configuration) "") as [Hempty | Hfull];
    cbn [negb] in Hnew.
  - injection Hnew as <- <-. cbn. left. split; [exact Hempty | reflexivity].
  - destruct (net_DialTimeout env "udp" (GraylogAddress configuration) 15)
      as [c | e] eqn:Hdial.
    + injection Hnew as <- <-. cbn.
      split; [exact Hfull|]. split; [reflexivity|].
      exists c. split; reflexivity.
    + injection Hnew as <- <-. cbn. right.
      split; [exact Hfull|]. split; [exists e; reflexivity | reflexivity].
Qed.

Lemma New_core_cases_witness :
  GraylogAddress {| GraylogAddress := "localhost:5141"; AppName := "test";
                    Hostname := "localhost" |} <> ""%string
  /\ world0 = world0
  /\ exists c : Conn,
       net_DialTimeout dialing_env "udp"
         (GraylogAddress {| GraylogAddress := "localhost:5141"; AppName := "test";
                            Hostname := "localhost" |}) 15 = inl c
       /\ default_writer accepting CompressionGzip
          = mkWriter (Some c) 1420 1408 CompressionGzip 9.
Proof.
  apply (New_core_cases dialing_env
           {| GraylogAddress := "localhost:5141"; AppName := "test";
              Hostname := "localhost" |}
           world0 world0
           (mkLogger (GraylogCore (default_writer accepting CompressionGzip))
              [ zap_Int "pid" 4242; zap_String "app_name" "test";
                zap_String "host" "localhost"; zap_String "exe" "logger.test";
                zap_String "version" "1.1" ])).
  reflexivity.
Defined.

(** ** Consecutive records *)

(** X12. Two chunked records written one after the other on a socket that
    accepts everything: each [Write] reads the entropy source once, so the
    first record goes out under the bytes of read [k] and the second under
    the bytes of read [k + 1], and all chunks of the first record are handed
    over before any chunk of the second. *)
Theorem consecutive_records_draw_their_own_id (env : Env) (w : writer) (c : Conn)
    (buf1 cBytes1 got1 buf2 cBytes2 got2 : list byte) (s : World) :
  let count1 := len cBytes1 / chunkDataSize w + 1 in
  let count2 := len cBytes2 / chunkDataSize w + 1 in
  conn w = Some c ->
  0 < chunkDataSize w <= chunkSize w ->
  compressStage env w buf1 = Returned (inr cBytes1) ->
  compressStage env w buf2 = Returned (inr cBytes2) ->
  chunkSize w < len cBytes1 < MaxChunkCount * chunkDataSize w ->
  chunkSize w < len cBytes2 < MaxChunkCount * chunkDataSize w ->
  len cBytes1 < max_int -> len cBytes2 < max_int ->
  rand_ReadFull env (entropy_reads s) = (got1, None) ->
  rand_ReadFull env (S (entropy_reads s)) = (got2, None) ->
  length got1 = 8%nat -> length got2 = 8%nat ->
  (forall (k : nat) (p : list byte), c k p = (len p, None)) ->
  (_ <- Write env w buf1 ;; Write env w buf2) s =
    (Returned (len cBytes2, None),
     handed (map (chunk_datagram w got2 count2 cBytes2) (seq 0 (Z.to_nat count2)))
       (drawn
          (handed (map (chunk_datagram w got1 count1 cBytes1)
                     (seq 0 (Z.to_nat count1)))
             (drawn s)))).
Proof.
  intros count1 count2 Hc [HD Hcap] Hcompress1 Hcompress2 [Hgt1 Hmax1]
    [Hgt2 Hmax2] Hint1 Hint2 Hrand1 Hrand2 Hgot1 Hgot2 Hacc.
  assert (Hsend : forall (cBytes got : list byte) (s0 : World),
             chunkSize w < len cBytes < MaxChunkCount * chunkDataSize w ->
             len cBytes < max_int ->
             rand_ReadFull env (entropy_reads s0) = (got, None) ->
             length got = 8%nat ->
             sendStage env w cBytes s0 =
               (Returned (len cBytes, None),
                handed (map (chunk_datagram w got
                               (len cBytes / chunkDataSize w + 1) cBytes)
                          (seq 0 (Z.to_nat (len cBytes / chunkDataSize w + 1))))
                  (drawn s0))).
  { intros cBytes got s0 [Hgt Hmax] Hint Hrand Hgot.
    assert (Hcount : chunkCount w cBytes
                     = Returned (len cBytes / chunkDataSize w + 1))
      by (apply chunkCount_chunked; lia).
    assert (Hq : 1 <= len cBytes / chunkDataSize w)
      by (apply Z.div_le_lower_bound; lia).
    rewrite (sendStage_chunked _ _ _ _ Hcount) by lia.
    apply (writeChunked_accepted env w c cBytes got s0); try assumption; try lia.
    - apply (count_within_maximum w cBytes _ HD ltac:(lia) Hcount). exact Hmax.
    - intros j _. apply Hacc. }
  unfold bind.
  rewrite (Write_after_compression _ _ _ _ Hcompress1).
  rewrite (Write_after_compression _ _ _ _ Hcompress2).
  rewrite (Hsend cBytes1 got1 s) by (assumption || (split; assumption)).
  apply Hsend; try assumption; split; assumption.
Qed.

Lemma consecutive_records_draw_their_own_id_witness :
  let w := default_writer accepting CompressionGzip in
  (_ <- Write example_env w (zeroes 3000) ;; Write example_env w (zeroes 1500)) world0 =
    (Returned (len (zeroes 1500), None),
     handed (map (chunk_datagram w example_id
                    (len (zeroes 1500) / chunkDataSize w + 1) (zeroes 1500))
               (seq 0 (Z.to_nat (len (zeroes 1500) / chunkDataSize w + 1))))
       (drawn
          (handed (map (chunk_datagram w example_id
                          (len (zeroes 3000) / chunkDataSize w + 1) (zeroes 3000))
                     (seq 0 (Z.to_nat (len (zeroes 3000) / chunkDataSize w + 1))))
             (drawn world0)))).
Proof.
  intros w.
  apply (consecutive_records_draw_their_own_id example_env w accepting
           (zeroes 3000) (zeroes 3000) example_id
           (zeroes 1500) (zeroes 1500) example_id world0).
  - reflexivity.
  - vm_compute. split; [reflexivity | discriminate].
  - reflexivity.
  - reflexivity.
  - vm_compute. split; reflexivity.
  - vm_compute. split; reflexivity.
  - vm_compute. reflexivity.
  - vm_compute. reflexivity.
  - reflexivity.
  - reflexivity.
  - reflexivity.
  - reflexivity.
  - intros k p. reflexivity.
Defined.
